(** * SAUCIE utilities: the [DataSet] batch sampler, its persistence and the
    numeric helpers of [saucie_utils.py], as a shallow embedding.

  Python integers are [Z]; ndarrays are lists of rows (axis 0 is the list);
  the attributes of a [DataSet] object are the fields of a record; methods
  that mutate [self] or draw from NumPy's global generator run in a small
  state-and-exception monad over the pair (object, generator). *)

From Stdlib Require Import String Floats.
From Stdlib Require Import List ZArith Lia Bool Permutation.
Import ListNotations.
Open Scope Z_scope.

(** ** Python sequence primitives *)

Module Py.

(** Exceptions the modelled code can raise. *)
Inductive exn :=
| AssertionError | IndexError | AttributeError | KeyError | ValueError | TypeError.

Inductive result (A : Type) :=
| Ok (a : A)
| Raise (e : exn).
Arguments Ok {A} a.
Arguments Raise {A} e.

(** Clamping of one slice bound, as CPython's [PySlice_AdjustIndices] does
    for a step of 1: a negative bound counts from the end, and the result is
    clipped to [0, len]. *)
Definition adjust_index (len i : Z) : Z :=
  if i <? 0 then (if i + len <? 0 then 0 else i + len)
  else if len <=? i then len else i.

(** [a[start:stop]] on axis 0; an omitted bound is [None]. *)
Definition slice {A : Type} (a : list A) (start stop : option Z) : list A :=
  let len := Z.of_nat (length a) in
  let lo := match start with None => 0 | Some i => adjust_index len i end in
  let hi := match stop with None => len | Some j => adjust_index len j end in
  firstn (Z.to_nat (hi - lo)) (skipn (Z.to_nat lo) a).

(** [a[idx]] for an index array of non-negative positions: the rows at those
    positions in that order, [IndexError] (here [None]) if one is out of
    bounds. *)
Fixpoint take {A : Type} (a : list A) (idx : list nat) : option (list A) :=
  match idx with
  | [] => Some []
  | i :: rest =>
      match nth_error a i, take a rest with
      | Some x, Some xs => Some (x :: xs)
      | _, _ => None
      end
  end.

(** [np.arange(n)] *)
Definition arange (n : Z) : list nat := seq 0 (Z.to_nat n).

(** [len(a)] / [a.shape[0]] *)
Definition len {A : Type} (a : list A) : Z := Z.of_nat (length a).

End Py.
Import Py.

(** ** The DataSet class *)

Section DataSetModel.

(** [F] is the element type of the matrices (float32 in the source), [L]
    the type of a label, [C] the type of a column or marker name. *)
Variables F L C : Type.

(** State of NumPy's global generator, and [np.random.shuffle] on an index
    array: the shuffled array and the next generator state. *)
Variable G : Type.
Variable np_random_shuffle : G -> list nat -> list nat * G.

Definition row := list F.
Definition matrix := list row.

(** The instance attributes ([self.__dict__]).  [_data], [_labeled],
    [_shuffle] and the four counters are always set by [__init__]; the others
    are present only when the caller's keyword dictionary held them. *)
Record DataSet := mkDataSet {
  _labeled : bool;
  _shuffle : bool;
  _data : matrix;
  _labels : option (list L);
  _test_data : option matrix;
  _test_labels : option (list L);
  _colnames : option (list C);
  _markers : option (list C);
  _max : option (list F);
  _min : option (list F);
  _components : option matrix;
  _mean_offset : option (list F);
  _num_samples : Z;
  _index_in_epoch : Z;
  _epochs_trained : Z;
  _batch_number : Z
}.

(** Attribute assignments used by the methods. *)
Definition set_data (v : matrix) (d : DataSet) : DataSet :=
  mkDataSet (_labeled d) (_shuffle d) v (_labels d) (_test_data d)
    (_test_labels d) (_colnames d) (_markers d) (_max d) (_min d)
    (_components d) (_mean_offset d) (_num_samples d) (_index_in_epoch d)
    (_epochs_trained d) (_batch_number d).

Definition set_labels (v : list L) (d : DataSet) : DataSet :=
  mkDataSet (_labeled d) (_shuffle d) (_data d) (Some v) (_test_data d)
    (_test_labels d) (_colnames d) (_markers d) (_max d) (_min d)
    (_components d) (_mean_offset d) (_num_samples d) (_index_in_epoch d)
    (_epochs_trained d) (_batch_number d).

Definition set_index_in_epoch (v : Z) (d : DataSet) : DataSet :=
  mkDataSet (_labeled d) (_shuffle d) (_data d) (_labels d) (_test_data d)
    (_test_labels d) (_colnames d) (_markers d) (_max d) (_min d)
    (_components d) (_mean_offset d) (_num_samples d) v
    (_epochs_trained d) (_batch_number d).

Definition set_epochs_trained (v : Z) (d : DataSet) : DataSet :=
  mkDataSet (_labeled d) (_shuffle d) (_data d) (_labels d) (_test_data d)
    (_test_labels d) (_colnames d) (_markers d) (_max d) (_min d)
    (_components d) (_mean_offset d) (_num_samples d) (_index_in_epoch d)
    v (_batch_number d).

Definition set_batch_number (v : Z) (d : DataSet) : DataSet :=
  mkDataSet (_labeled d) (_shuffle d) (_data d) (_labels d) (_test_data d)
    (_test_labels d) (_colnames d) (_markers d) (_max d) (_min d)
    (_components d) (_mean_offset d) (_num_samples d) (_index_in_epoch d)
    (_epochs_trained d) v.

(** *** The method monad: state is [self] and the generator; an exception
    keeps the state reached when it was raised. *)
Definition world : Type := DataSet * G.
Definition M (A : Type) : Type := world -> result A * world.

Definition ret {A : Type} (a : A) : M A := fun w => (Ok a, w).
Definition bind {A B : Type} (m : M A) (k : A -> M B) : M B :=
  fun w => match m w with
           | (Ok a, w') => k a w'
           | (Raise e, w') => (Raise e, w')
           end.
Definition raise {A : Type} (e : exn) : M A := fun w => (Raise e, w).

(** read [self.<attr>] *)
Definition attr {A : Type} (f : DataSet -> A) : M A := fun w => (Ok (f (fst w)), w).
(** [self.<attr> = v] *)
Definition setattr (upd : DataSet -> DataSet) : M unit :=
  fun w => (Ok tt, (upd (fst w), snd w)).
(** read an attribute that may be missing from [__dict__] *)
Definition attr_opt {A : Type} (f : DataSet -> option A) : M A :=
  fun w => match f (fst w) with
           | Some a => (Ok a, w)
           | None => (Raise AttributeError, w)
           end.
Definition py_assert (b : bool) : M unit :=
  if b then ret tt else raise AssertionError.
(** a fancy-indexing read lifted into the monad *)
Definition index_with {A : Type} (a : list A) (idx : list nat) : M (list A) :=
  match take a idx with
  | Some r => ret r
  | None => raise IndexError
  end.
(** [np.random.shuffle(idx)] on the global generator *)
Definition random_shuffle (idx : list nat) : M (list nat) :=
  fun w => let '(idx', g') := np_random_shuffle (snd w) idx in
           (Ok idx', (fst w, g')).

Notation "x <- m ;; k" := (bind m (fun x => k))
  (at level 61, m at next level, right associativity).
Notation "m ;;; k" := (bind m (fun _ => k))
  (at level 61, right associativity).

(** [DataSet._shuffle_data] *)
Definition _shuffle_data : M unit :=
  n <- attr _num_samples ;;
  shuffled_idx <- random_shuffle (arange n) ;;
  data <- attr _data ;;
  data' <- index_with data shuffled_idx ;;
  setattr (set_data data') ;;;
  labeled <- attr _labeled ;;
  if labeled : bool then
    labels <- attr_opt _labels ;;
    labels' <- index_with labels shuffled_idx ;;
    setattr (set_labels labels')
  else ret tt.

(** What [next_batch] returns: the data batch alone, or the pair
    [(data_batch, labels_batch)] when the set is labeled. *)
Inductive batch :=
| DataBatch (data_batch : matrix)
| LabeledBatch (data_batch : matrix) (labels_batch : list L).

Definition batch_data (b : batch) : matrix :=
  match b with DataBatch x => x | LabeledBatch x _ => x end.
Definition batch_labels (b : batch) : option (list L) :=
  match b with DataBatch _ => None | LabeledBatch _ y => Some y end.

(** [DataSet.next_batch] *)
Definition next_batch (batch_size : Z) : M batch :=
  n <- attr _num_samples ;;
  py_assert (batch_size <=? n) ;;;
  start <- attr _index_in_epoch ;;
  if n <? start + batch_size then
    e <- attr _epochs_trained ;;
    setattr (set_epochs_trained (e + 1)) ;;;
    setattr (set_batch_number 0) ;;;
    data <- attr _data ;;
    let data_batch := slice data (Some start) None in
    labeled <- attr _labeled ;;
    labels_batch <-
      (if labeled : bool then
         labels <- attr_opt _labels ;;
         ret (slice labels (Some start) None)
       else ret []) ;;
    n' <- attr _num_samples ;;
    let remaining := batch_size - (n' - start) in
    shuffle <- attr _shuffle ;;
    (if shuffle : bool then _shuffle_data else ret tt) ;;;
    data' <- attr _data ;;
    let data_batch := data_batch ++ slice data' None (Some remaining) in
    labeled' <- attr _labeled ;;
    labels_batch <-
      (if labeled' : bool then
         labels' <- attr_opt _labels ;;
         ret (labels_batch ++ slice labels' None (Some remaining))
       else ret labels_batch) ;;
    setattr (set_index_in_epoch remaining) ;;;
    bn <- attr _batch_number ;;
    setattr (set_batch_number (bn + 1)) ;;;
    labeled'' <- attr _labeled ;;
    ret (if labeled'' : bool then LabeledBatch data_batch labels_batch
         else DataBatch data_batch)
  else
    data <- attr _data ;;
    let data_batch := slice data (Some start) (Some (start + batch_size)) in
    labeled <- attr _labeled ;;
    labels_batch <-
      (if labeled : bool then
         labels <- attr_opt _labels ;;
         ret (slice labels (Some start) (Some (start + batch_size)))
       else ret []) ;;
    setattr (set_index_in_epoch (start + batch_size)) ;;;
    bn <- attr _batch_number ;;
    setattr (set_batch_number (bn + 1)) ;;;
    labeled'' <- attr _labeled ;;
    ret (if labeled'' : bool then LabeledBatch data_batch labels_batch
         else DataBatch data_batch).

(** [k] successive calls [next_batch(batch_size)], collecting what they
    return; the first exception stops the run. *)
Fixpoint next_batches (k : nat) (batch_size : Z) : M (list batch) :=
  match k with
  | O => ret []
  | S k' =>
      b <- next_batch batch_size ;;
      bs <- next_batches k' batch_size ;;
      ret (b :: bs)
  end.

(** *** Construction and persistence *)

(** The keyword dictionary [**data_dict] handed to [__init__]; the archive
    written by [save] has the same shape, one entry per attribute of
    [__dict__].  Each key is present ([Some]) or absent. *)
Record data_dict := mkDict {
  k_labeled : option bool;
  k_shuffle : option bool;
  k_data : option matrix;
  k_labels : option (list L);
  k_test_data : option matrix;
  k_test_labels : option (list L);
  k_colnames : option (list C);
  k_markers : option (list C);
  k_max : option (list F);
  k_min : option (list F);
  k_components : option matrix;
  k_mean_offset : option (list F);
  k_num_samples : option Z;
  k_index_in_epoch : option Z;
  k_epochs_trained : option Z;
  k_batch_number : option Z
}.

(** One key of [self.__dict__.update(data_dict)]: a present key overrides
    the attribute set before. *)
Definition updated {A : Type} (old : A) (new : option A) : A :=
  match new with Some v => v | None => old end.

(** The two assertions that open [__init__]. *)
Definition init_asserts (labeled : bool) (dd : data_dict) : bool :=
  match k_data dd with
  | None => false
  | Some data =>
      if labeled then
        match k_labels dd with
        | None => false
        | Some labels => len data =? len labels
        end
      else true
  end.

(** [DataSet.__init__(self, shuffle, labeled, **data_dict)]: the object it
    builds and the generator state it leaves. *)
Definition __init__ (shuffle labeled : bool) (dd : data_dict) (g : G)
  : result DataSet * G :=
  if init_asserts labeled dd then
    match k_data dd with
    | None => (Raise AssertionError, g)
    | Some data =>
        let self :=
          mkDataSet (updated labeled (k_labeled dd))
            (updated shuffle (k_shuffle dd))
            data (k_labels dd) (k_test_data dd) (k_test_labels dd)
            (k_colnames dd) (k_markers dd) (k_max dd) (k_min dd)
            (k_components dd) (k_mean_offset dd)
            (len data) 0 0 0 in
        if _shuffle self then
          match _shuffle_data (self, g) with
          | (Ok _, (self', g')) => (Ok self', g')
          | (Raise e, (_, g')) => (Raise e, g')
          end
        else (Ok self, g)
    end
  else (Raise AssertionError, g).

(** [DataSet.save]: the archive holds every entry of [self.__dict__]. *)
Definition save (self : DataSet) : data_dict :=
  mkDict (Some (_labeled self)) (Some (_shuffle self)) (Some (_data self))
    (_labels self) (_test_data self) (_test_labels self) (_colnames self)
    (_markers self) (_max self) (_min self) (_components self)
    (_mean_offset self) (Some (_num_samples self))
    (Some (_index_in_epoch self)) (Some (_epochs_trained self))
    (Some (_batch_number self)).

(** [DataSet.load]: reads ['_labeled'] from the archive and calls the
    constructor with the archive as keywords ([shuffle] keeps its default). *)
Definition load (archive : data_dict) (g : G) : result DataSet * G :=
  match k_labeled archive with
  | None => (Raise KeyError, g)
  | Some labeled => __init__ true labeled archive g
  end.

(** *** Properties that the statements below refer to *)

(** What [__init__] establishes and every method keeps: the cached sample
    count is the row count, and a labeled set has one label per row. *)
Definition consistent (d : DataSet) : Prop :=
  _num_samples d = len (_data d) /\
  (_labeled d = true ->
   exists ls, _labels d = Some ls /\ length ls = length (_data d)).

(** The rows paired with their labels. *)
Definition paired (d : DataSet) : list (row * L) :=
  match _labels d with
  | Some ls => combine (_data d) ls
  | None => []
  end.

(** [d'] holds the training rows (and, when labeled, the labels) of [d]
    rearranged by one index array [idx]. *)
Definition rearranged_by (idx : list nat) (d d' : DataSet) : Prop :=
  take (_data d) idx = Some (_data d') /\
  (_labeled d = true ->
   exists ls ls', _labels d = Some ls /\ _labels d' = Some ls' /\
                  take ls idx = Some ls') /\
  (_labeled d = false -> _labels d' = _labels d).

(** Everything outside the sampler counters and the training arrays. *)
Definition same_frame (d d' : DataSet) : Prop :=
  _test_data d' = _test_data d /\
  _test_labels d' = _test_labels d /\
  _labeled d' = _labeled d /\
  _shuffle d' = _shuffle d /\
  _num_samples d' = _num_samples d /\
  _colnames d' = _colnames d /\
  _markers d' = _markers d /\
  _max d' = _max d /\
  _min d' = _min d /\
  _components d' = _components d /\
  _mean_offset d' = _mean_offset d.

End DataSetModel.

Arguments _labeled {F L C} d.
Arguments _shuffle {F L C} d.
Arguments _data {F L C} d.
Arguments _labels {F L C} d.
Arguments _test_data {F L C} d.
Arguments _test_labels {F L C} d.
Arguments _colnames {F L C} d.
Arguments _markers {F L C} d.
Arguments _max {F L C} d.
Arguments _min {F L C} d.
Arguments _components {F L C} d.
Arguments _mean_offset {F L C} d.
Arguments _num_samples {F L C} d.
Arguments _index_in_epoch {F L C} d.
Arguments _epochs_trained {F L C} d.
Arguments _batch_number {F L C} d.
Arguments mkDataSet {F L C}.
Arguments mkDict {F L C}.
Arguments k_labeled {F L C} d.
Arguments k_data {F L C} d.
Arguments k_labels {F L C} d.
Arguments k_shuffle {F L C} d.
Arguments k_test_data {F L C} d.
Arguments k_test_labels {F L C} d.
Arguments k_colnames {F L C} d.
Arguments k_markers {F L C} d.
Arguments k_max {F L C} d.
Arguments k_min {F L C} d.
Arguments k_components {F L C} d.
Arguments k_mean_offset {F L C} d.
Arguments k_num_samples {F L C} d.
Arguments k_index_in_epoch {F L C} d.
Arguments k_epochs_trained {F L C} d.
Arguments k_batch_number {F L C} d.
Arguments set_data {F L C} v d.
Arguments set_labels {F L C} v d.
Arguments set_index_in_epoch {F L C} v d.
Arguments set_epochs_trained {F L C} v d.
Arguments set_batch_number {F L C} v d.
Arguments DataBatch {F L} data_batch.
Arguments LabeledBatch {F L} data_batch labels_batch.
Arguments batch_data {F L} b.
Arguments batch_labels {F L} b.
Arguments _shuffle_data {F L C G} np_random_shuffle w.
Arguments next_batch {F L C G} np_random_shuffle batch_size w.
Arguments next_batches {F L C G} np_random_shuffle k batch_size w.
Arguments __init__ {F L C G} np_random_shuffle shuffle labeled dd g.
Arguments init_asserts {F L C} labeled dd.
Arguments save {F L C} self.
Arguments load {F L C G} np_random_shuffle archive g.
Arguments consistent {F L C} d.
Arguments paired {F L C} d.
Arguments rearranged_by {F L C} idx d d'.
Arguments same_frame {F L C} d d'.

(** ** Elementwise array arithmetic *)

(** Pairwise combination of two one-dimensional arrays. *)
Fixpoint map2 {A B D : Type} (f : A -> B -> D) (u : list A) (v : list B) : list D :=
match u, v with
| a :: u', b :: v' => f a b :: map2 f u' v'
| _, _ => []
end.

(** Sequencing of computations that may raise. *)
Definition and_then {A B : Type} (r : result A) (k : A -> result B) : result B :=
match r with
| Ok a => k a
| Raise e => Raise e
end.

(** ** The mutual-information estimator *)

Section MutualInformation.

(** [F] stands for the floating-point numbers, [G] for the state of NumPy's
    global generator.  The scikit-learn and NumPy entry points that
    [activation_mutual_info] calls are taken as they are; each of them may
    raise, and [k_means] draws from the generator. *)
Variables F G : Type.

(** A bin count as Python passes it: an [int], or a [float]. *)
Inductive bin_count :=
| IntCount (b : Z)
| FloatCount (f : F).

Variable pairwise_distances : list (list F) -> result (list (list F)).
(** [np.histogram2d(x, y, bins)] returns [(H, xedges, yedges)]. *)
Variable histogram2d :
  list F -> list F -> bin_count -> result (list (list F) * (list F * list F)).
(** [mutual_info_score(labels_true, labels_pred, contingency)] *)
Variable mutual_info_score :
  list Z -> list Z -> option (list (list F)) -> result F.
(** [k_means(X, n_clusters)] returns [(centroid, label, inertia)]. *)
Variable k_means :
  list (list F) -> Z -> G -> result (list (list F) * (list Z * F)) * G.
Variable np_sqrt : F -> F.
(** Python's true division of two integers. *)
Variable true_div : Z -> Z -> F.

(** [np.zeros(n)], used only as placeholder labels. *)
Definition np_zeros (n : Z) : list Z := repeat 0 (Z.to_nat n).

(** [activation_mutual_info(x, y, method, k, bins)]: what it returns or
    raises, and the generator state it leaves. *)
Definition activation_mutual_info (x y : list (list F)) (method : string)
  (k : option Z) (bins : option bin_count) (g : G) : result F * G :=
let n := len x in
match k with
| None =>
    (and_then (pairwise_distances x) (fun dx =>
     let x_dist := slice (concat dx) None (Some (n * n - 1)) in
     and_then (pairwise_distances y) (fun dy =>
     let y_dist := slice (concat dy) None (Some (n * n - 1)) in
     let bins := match bins with
                 | None => FloatCount (np_sqrt (true_div n 5))
                 | Some b => b
                 end in
     and_then (histogram2d x_dist y_dist bins) (fun h =>
     let hist := fst h in
     mutual_info_score (np_zeros n) (np_zeros n) (Some hist)))), g)
| Some k =>
    match k_means x k g with
    | (Raise e, g1) => (Raise e, g1)
    | (Ok rx, g1) =>
        let x_clust := fst (snd rx) in
        match k_means x k g1 with
        | (Raise e, g2) => (Raise e, g2)
        | (Ok ry, g2) =>
            let y_clust := fst (snd ry) in
            (mutual_info_score x_clust y_clust None, g2)
        end
    end
end.

(** The distance method in the words of the specification: the first
    [n*n - 1] entries of each flattened distance matrix, [sqrt(n/5)] bins unless
    a count is supplied, the 2-D histogram as contingency table, and the mutual
    information of that table; a step that raises ends the computation. *)
Definition distance_method (x y : list (list F)) (bins : option bin_count)
  : result F :=
let n := length x in
and_then (pairwise_distances x) (fun dx =>
and_then (pairwise_distances y) (fun dy =>
let x_dist := firstn (n * n - 1) (concat dx) in
let y_dist := firstn (n * n - 1) (concat dy) in
let count := match bins with
             | None => FloatCount (np_sqrt (true_div (Z.of_nat n) 5))
             | Some b => b
             end in
and_then (histogram2d x_dist y_dist count) (fun h =>
mutual_info_score [] [] (Some (fst h))))).

(** The two cluster assignments of the cluster method, as the code draws
    them: both from the first argument. *)
Definition cluster_labels (x : list (list F)) (k : Z) (g : G)
  : result (list Z * list Z) * G :=
match k_means x k g with
| (Raise e, g1) => (Raise e, g1)
| (Ok rx, g1) =>
    match k_means x k g1 with
    | (Raise e, g2) => (Raise e, g2)
    | (Ok ry, g2) => (Ok (fst (snd rx), fst (snd ry)), g2)
    end
end.

End MutualInformation.

Arguments IntCount {F} b.
Arguments FloatCount {F} f.
Arguments activation_mutual_info {F G} pairwise_distances histogram2d
  mutual_info_score k_means np_sqrt true_div x y method k bins g.
Arguments distance_method {F} pairwise_distances histogram2d
  mutual_info_score np_sqrt true_div x y bins.
Arguments cluster_labels {F G} k_means x k g.

(** ** Inverse transform of the PCA-normalized family *)

Section InverseTransform.

Variables F L C : Type.
Variable fzero : F.
Variables fadd fsub fmul : F -> F -> F.

(** [u op v] for two one-dimensional arrays: elementwise when they are
    equally long, an array of length 1 broadcast over the other, [ValueError]
    otherwise. *)
Definition vec_op (op : F -> F -> F) (u v : list F) : result (list F) :=
if (length u =? length v)%nat then Ok (map2 op u v)
else match u, v with
     | _, [b] => Ok (map (fun a => op a b) u)
     | [a], _ => Ok (map (op a) v)
     | _, _ => Raise ValueError
     end.

(** [x op v] for a matrix and a vector, the vector broadcast over the rows.
    (A matrix is its list of rows, so a matrix without rows has no width to
    check against.) *)
Fixpoint bcast_op (op : F -> F -> F) (x : list (list F)) (v : list F)
  : result (list (list F)) :=
match x with
| [] => Ok []
| r :: rest =>
    and_then (vec_op op r v) (fun r' =>
    and_then (bcast_op op rest v) (fun rest' => Ok (r' :: rest')))
end.

(** One row of [np.dot(x, w)]: the sum over [k] of [r[k] * w[k]]. *)
Fixpoint row_dot (r : list F) (w : list (list F)) (width : nat) : list F :=
match r, w with
| a :: r', wk :: w' => map2 fadd (map (fmul a) wk) (row_dot r' w' width)
| _, _ => repeat fzero width
end.

(** [np.dot(x, w)] for two matrices. *)
Definition np_dot (x w : list (list F)) : result (list (list F)) :=
if forallb (fun r => (length r =? length w)%nat) x
then Ok (map (fun r => row_dot r w (length (hd [] w))) x)
else Raise ValueError.

(** The value of the local variable [x] of [rnaseq_inverse_transform] when
    its [return] is reached.  For a supplied array, [x == None] compares
    elementwise, and the truth value of an array with more than one element is
    a [ValueError]; an array with one element, or with none, is compared and
    found different from [None]. *)
Definition rnaseq_inverse_transform_x (data : DataSet F L C)
  (x : option (list (list F))) : result (list (list F)) :=
and_then
  (match x with
   | None =>
       match _test_data data with
       | Some t => Ok (_data data ++ t)
       | None => Raise AttributeError
       end
   | Some x0 =>
       if (1 <? length (concat x0))%nat then Raise ValueError else Ok x0
   end)
  (fun x0 =>
     and_then
       (match _min data, _max data with
        | Some mn, Some mx =>
            and_then (vec_op fsub mx mn) (fun range =>
            and_then (bcast_op fmul x0 range) (fun scaled =>
            bcast_op fadd scaled mn))
        | _, _ => Ok x0
        end)
       (fun x1 =>
          match _components data with
          | Some comps =>
              and_then (np_dot x1 comps) (fun projected =>
              match _mean_offset data with
              | Some mo => bcast_op fadd projected mo
              | None => Raise AttributeError
              end)
          | None => Ok x1
          end)).

(** [rnaseq_inverse_transform(data, x)]: its last statement is
    [return data]. *)
Definition rnaseq_inverse_transform (data : DataSet F L C)
  (x : option (list (list F))) : result (DataSet F L C) :=
and_then (rnaseq_inverse_transform_x data x) (fun _ => Ok data).

End InverseTransform.

Arguments vec_op {F} op u v.
Arguments bcast_op {F} op x v.
Arguments np_dot {F} fzero fadd fmul x w.
Arguments rnaseq_inverse_transform_x {F L C} fzero fadd fsub fmul data x.
Arguments rnaseq_inverse_transform {F L C} fzero fadd fsub fmul data x.

(** ** Normalization of the CyTOF family *)

Section CytofNormalization.

(** [F] stands for the float32 numbers; the arithmetic on them, with its
    rounding and its special values, is taken as it is. *)
Variables F L C : Type.
Variables float_add float_sub float_mul float_div : F -> F -> F.
Variables float_min float_max : F -> F -> F.
Variable np_arcsinh : F -> F.
Variable float_of_int : Z -> F.
(** The entries that scikit-learn's input validation lets through: the
    finite numbers (later versions let NaN through as well). *)
Variable accepted : F -> bool.
(** scikit-learn's test for a column without spread: [range == 0.0] (later
    versions: a range below ten machine epsilons). *)
Variable zero_range : F -> bool.

(** [np.arcsinh(X / 5)] *)
Definition arcsinh_div5 (X : list (list F)) : list (list F) :=
map (map (fun v => np_arcsinh (float_div v (float_of_int 5)))) X.

(** [np.concatenate([a, b])]: the rows of [a], then those of [b]; the two
    must be equally wide.  (A matrix is its list of rows, so one without rows
    has no width to compare.) *)
Definition np_concatenate (a b : list (list F)) : result (list (list F)) :=
match a, b with
| r :: _, s :: _ =>
    if (length r =? length s)%nat then Ok (a ++ b) else Raise ValueError
| _, _ => Ok (a ++ b)
end.

(** scikit-learn's [check_array], which [fit] and [transform] run on their
    argument: at least one row, at least one column, accepted entries only. *)
Definition check_array (X : list (list F)) : result (list (list F)) :=
match X with
| [] => Raise ValueError
| r :: _ =>
    if (length r =? 0)%nat then Raise ValueError
    else if forallb (forallb accepted) X then Ok X
    else Raise ValueError
end.

(** The fitted attributes of scikit-learn's [MinMaxScaler]. *)
Record MinMaxScaler := mkScaler {
  data_min_ : list F;
  data_max_ : list F;
  data_range_ : list F;
  scale_ : list F;
  min_ : list F
}.

(** scikit-learn's [_handle_zeros_in_scale]: [scale[scale == 0.0] = 1.0]. *)
Definition handle_zeros_in_scale (scale : list F) : list F :=
map (fun s => if zero_range s then float_of_int 1 else s) scale.

(** [np.min(X, axis=0)] and [np.max(X, axis=0)]: a reduction down the
    columns, which NumPy refuses on an array without rows. *)
Definition reduce_axis0 (op : F -> F -> F) (X : list (list F)) : result (list F) :=
match X with
| [] => Raise ValueError
| r :: rest => Ok (fold_left (map2 op) rest r)
end.

(** [MinMaxScaler().fit(X)] with the default feature range (0, 1), after
    scikit-learn's [partial_fit]. *)
Definition MinMaxScaler_fit (X : list (list F)) : result MinMaxScaler :=
and_then (check_array X) (fun X =>
and_then (reduce_axis0 float_min X) (fun data_min =>
and_then (reduce_axis0 float_max X) (fun data_max =>
  let data_range := map2 float_sub data_max data_min in
  let scale := map (fun r => float_div (float_of_int (1 - 0)) r)
                 (handle_zeros_in_scale data_range) in
  let min := map2 (fun m s => float_sub (float_of_int 0) (float_mul m s))
               data_min scale in
  Ok (mkScaler data_min data_max data_range scale min)))).

(** [ms.transform(X)]: [X *= scale_; X += min_]. *)
Definition MinMaxScaler_transform (ms : MinMaxScaler) (X : list (list F))
  : result (list (list F)) :=
and_then (check_array X) (fun X =>
Ok (map (fun r => map2 float_add (map2 float_mul r (scale_ ms)) (min_ ms)) X)).

(** The branch [if dataset in CYTOF_DATASETS] of [load_dataset], applied to
    the [DataSet] that the file readers produced. *)
Definition load_dataset_cytof (data : DataSet F L C) : result (DataSet F L C) :=
let train := arcsinh_div5 (_data data) in
match _test_data data with
| None => Raise AttributeError
| Some t =>
    let test := arcsinh_div5 t in
    and_then (np_concatenate train test) (fun both =>
    and_then (MinMaxScaler_fit both) (fun ms =>
    and_then (MinMaxScaler_transform ms train) (fun train' =>
    and_then (MinMaxScaler_transform ms test) (fun test' =>
      Ok (mkDataSet (_labeled data) (_shuffle data)
            train' (_labels data)
            (Some test') (_test_labels data)
            (_colnames data) (_markers data)
            (Some (data_max_ ms)) (Some (data_min_ ms))
            (_components data) (_mean_offset data)
            (_num_samples data) (_index_in_epoch data)
            (_epochs_trained data) (_batch_number data))))))
end.

(** The rescaling in the words of the specification:
    [x'' = (x' - min) / (max - min)], column by column. *)
Definition minmax_rescale (mn mx : list F) (r : list F) : list F :=
map2 (fun x ab => float_div (float_sub x (fst ab)) (float_sub (snd ab) (fst ab)))
  r (combine mn mx).

(** The rescaling as scikit-learn performs it: [x'' = x' * scale + offset]
    with [scale = 1 / (max - min)], the range replaced by 1 where it is zero,
    and [offset = 0 - min * scale]. *)
Definition scale_and_shift (mn mx : list F) (r : list F) : list F :=
map2 (fun x ab =>
        let range := float_sub (snd ab) (fst ab) in
        let scale := float_div (float_of_int 1)
                       (if zero_range range then float_of_int 1 else range) in
        float_add (float_mul x scale)
          (float_sub (float_of_int 0) (float_mul (fst ab) scale)))
  r (combine mn mx).

End CytofNormalization.

Arguments arcsinh_div5 {F} float_div np_arcsinh float_of_int X.
Arguments np_concatenate {F} a b.
Arguments check_array {F} accepted X.
Arguments reduce_axis0 {F} op X.
Arguments load_dataset_cytof {F L C} float_add float_sub float_mul float_div
  float_min float_max np_arcsinh float_of_int accepted zero_range data.
Arguments minmax_rescale {F} float_sub float_div mn mx r.
Arguments scale_and_shift {F} float_add float_sub float_mul float_div
  float_of_int zero_range mn mx r.

(** ** Concrete instances used by the examples *)

(** A generator whose shuffle reverses the index array (one of the orders
    [np.random.shuffle] can produce); its state counts the draws. *)
Definition reversing_shuffle (g : nat) (idx : list nat) : list nat * nat :=
(rev idx, S g).

(** The matrix whose row [i] is [[i]]. *)
Definition index_rows (n : nat) : list (list Z) :=
map (fun i => [Z.of_nat i]) (seq 0 n).

(** Keywords [_data=data], and [_labels=labels] when given. *)
Definition keywords (data : list (list Z)) (labels : option (list Z))
  : data_dict Z Z unit :=
mkDict None None (Some data) labels None None None None None None None None
  None None None None.

(** Binary64 floats stand for the program's floats in the examples below.
    What the examples compute (small integers, the quotient [0 / 0], and the
    comparison of [sqrt(2/5)] with 1) comes out the same in float32. *)
Definition float_of_Z (z : Z) : float := PrimFloat.of_uint63 (Uint63.of_Z z).

Definition float_sum (r : list float) : float :=
fold_right PrimFloat.add 0%float r.

(** Stand-ins for the scikit-learn and NumPy entry points of the estimator,
    for running it on small inputs: distances between row sums; a histogram
    that, as [np.histogram2d] does, refuses a bin count below 1 with
    [ValueError] and a [float] count with [TypeError] (NumPy before 1.18
    truncated it), and otherwise has the number of points in one cell; a score
    that reads the contingency table when one is given; a clustering with one
    cluster. *)
Definition row_sum_distances (m : list (list float)) : result (list (list float)) :=
Ok (map (fun r => map (fun r' => PrimFloat.abs (float_sum r - float_sum r')%float) m) m).

Definition guarded_histogram2d (xs ys : list float) (bins : bin_count float)
  : result (list (list float) * (list float * list float)) :=
match bins with
| IntCount b =>
    if b <? 1 then Raise ValueError
    else Ok ([[float_of_Z (Z.of_nat (length xs))]], ([], []))
| FloatCount f =>
    if (f <? 1)%float then Raise ValueError else Raise TypeError
end.

Definition table_total (labels_true labels_pred : list Z)
  (contingency : option (list (list float))) : result float :=
match contingency with
| Some h => Ok (float_sum (concat h))
| None => Ok (float_of_Z (Z.of_nat (length labels_true)))
end.

Definition one_cluster (x : list (list float)) (k : Z) (g : nat)
  : result (list (list float) * (list Z * float)) * nat :=
(Ok ([], (repeat 0 (length x), 0%float)), S g).

Definition float_true_div (a b : Z) : float :=
(float_of_Z a / float_of_Z b)%float.

(** [activation_mutual_info] over these. *)
Definition activation_mutual_info_float (x y : list (list float))
  (k : option Z) (bins : option (bin_count float)) : result float * nat :=
activation_mutual_info row_sum_distances guarded_histogram2d table_total
  one_cluster PrimFloat.sqrt float_true_div x y "dist" k bins 0%nat.

(** A PCA-normalized set with one component: train row [[2]], test row
    [[3]], components [[1, 0]], mean offset [[10, 20]]. *)
Definition pca_example : DataSet Z Z unit :=
mkDataSet false false [[2]] None (Some [[3]]) None None None None None
  (Some [[1; 0]]) (Some [10; 20]) 1 0 0 0.

(** A CyTOF set with one constant column: train row [[0]], test row
    [[0]]. *)
Definition constant_column_example : DataSet float Z unit :=
mkDataSet false false [[0%float]] None (Some [[0%float]]) None None None None
  None None None 1 0 0 0.

(** The smaller and the larger of two floats. *)
Definition float_smaller (a b : float) : float := if (a <? b)%float then a else b.
Definition float_larger (a b : float) : float := if (a <? b)%float then b else a.

(** A function that agrees with [arcsinh] at 0, the one argument it is given
    in the example. *)
Definition arcsinh_at_zero (x : float) : float := x.

(** The test [range == 0.0]. *)
Definition float_is_zero_range (r : float) : bool := (r =? 0)%float.

(** The CyTOF branch over these. *)
Definition load_dataset_cytof_float (data : DataSet float Z unit)
  : result (DataSet float Z unit) :=
load_dataset_cytof PrimFloat.add PrimFloat.sub PrimFloat.mul PrimFloat.div
  float_smaller float_larger arcsinh_at_zero float_of_Z PrimFloat.is_finite
  float_is_zero_range data.

(** The objects built by [DataSet(shuffle=False, labeled=False, _data=...)]
    on two and on four rows. *)
Definition two_rows : DataSet Z Z unit :=
mkDataSet false false (index_rows 2) None None None None None None None
  None None 2 0 0 0.

Definition four_rows : DataSet Z Z unit :=
mkDataSet false false (index_rows 4) None None None None None None None
  None None 4 0 0 0.

(** A labeled set of two rows with shuffling on, and one of ten rows placed
    at position 8 of its epoch. *)
Definition two_labeled : DataSet Z Z unit :=
mkDataSet true true (index_rows 2) (Some [10; 11]) (Some [[7]]) (Some [17])
  None None None None None None 2 0 0 0.

Definition ten_labeled_at_8 : DataSet Z Z unit :=
mkDataSet true true (index_rows 10) (Some [10; 11; 12; 13; 14; 15; 16; 17; 18; 19])
  None None None None None None None None 10 8 0 2.

(** ** Further methods and helpers of the module *)

(** [DataSet.__len__]: [len(self._data) + len(self._test_data)]. *)
Definition __len__ {F L C : Type} (self : DataSet F L C) : result Z :=
match _test_data self with
| Some t => Ok (len (_data self) + len t)
| None => Raise AttributeError
end.

(** The positions [start, start+1, ...] of [count] consecutive rows of an
    epoch of [n] rows, wrapping round at its end. *)
Definition cyclic_positions (n start count : nat) : list nat :=
map (fun j => Nat.modulo (start + j) n) (seq 0 count).

(** *** Clusters from binarized activations *)

Section Binarize.

(** [F] stands for the floating-point numbers; its comparisons and the one
    product that [binarize] computes are taken as they are. *)
Variable F : Type.
Variable float_gt : F -> F -> bool.
Variable float_lt : F -> F -> bool.
Variable float_zero float_one : F.
Variable int_times_float : Z -> F -> F.
Variable int_lt_float : Z -> F -> bool.
Variable float_is_zero : F -> bool.

(** The order in which Python iterates over the set of distinct rows. *)
Variable set_order : list (list bool) -> list (list bool).

(** The argument [bin_min]: an [int], a [float], or [None]. *)
Inductive bin_min_arg :=
| BinInt (z : Z)
| BinFloat (f : F)
| BinNone.

(** [if type(bin_min) == float and bin_min > 0 and bin_min < 1:
       bin_min = len(acts) * bin_min] *)
Definition scale_bin_min (n : Z) (bin_min : bin_min_arg) : bin_min_arg :=
match bin_min with
| BinFloat f =>
    if float_gt f float_zero && float_lt f float_one
    then BinFloat (int_times_float n f)
    else bin_min
| _ => bin_min
end.

(** [bin_min and len(subs) < bin_min] *)
Definition below_bin_min (bin_min : bin_min_arg) (count : Z) : bool :=
match bin_min with
| BinInt z => negb (z =? 0) && (count <? z)
| BinFloat f => negb (float_is_zero f) && int_lt_float count f
| BinNone => false
end.

Fixpoint row_eqb (r r' : list bool) : bool :=
match r, r' with
| [], [] => true
| a :: r1, b :: r1' => Bool.eqb a b && row_eqb r1 r1'
| _, _ => false
end.

(** [np.where(mask)[0]]: the positions at which the mask holds. *)
Definition np_where (mask : list bool) : list nat :=
filter (fun j => nth j mask false) (seq 0 (length mask)).

(** [a[subs] = v] *)
Definition assign_at (subs : list nat) (v : Z) (a : list Z) : list Z :=
map2 (fun j old => if existsb (Nat.eqb j) subs then v else old)
  (seq 0 (length a)) a.

(** The loop [for i, row in enumerate(unique_rows[1:])], from index [i]. *)
Fixpoint label_clusters (bin_min : bin_min_arg) (binarized : list (list bool))
  (i : Z) (rows : list (list bool)) (new_labels : list Z) : list Z :=
match rows with
| [] => new_labels
| row :: rest =>
    let subs := np_where (map (fun r => row_eqb r row) binarized) in
    let new_labels :=
      if below_bin_min bin_min (len subs)
      then assign_at subs (-1) new_labels
      else assign_at subs (i + 1) new_labels in
    label_clusters bin_min binarized (i + 1) rest new_labels
end.

(** [binarize(acts, thresh, print_pct, bin_min)]; what it prints is left
    out.  [np.vstack] refuses an empty set of rows. *)
Definition binarize (acts : list (list F)) (thresh : F) (bin_min : bin_min_arg)
  : result (list Z) :=
let bin_min := scale_bin_min (len acts) bin_min in
let binarized := map (map (fun a => float_gt a thresh)) acts in
match set_order binarized with
| [] => Raise ValueError
| first :: others =>
    let num_clusters := len (first :: others) in
    let new_labels := repeat 0 (length acts) in
    Ok (if 1 <? num_clusters
        then label_clusters bin_min binarized 0 others new_labels
        else new_labels)
end.

(** The label that a sample with binarized row [r] is due, given the rows
    in iteration order: 0 for the first row, otherwise the row's position, or -1
    when fewer than [bin_min] samples share the row. *)
Definition cluster_label (bin_min : bin_min_arg) (binarized : list (list bool))
  (k : nat) (r : list bool) : Z :=
match k with
| O => 0
| S _ =>
    if below_bin_min bin_min
         (len (filter (fun r' => row_eqb r' r) binarized))
    then -1 else Z.of_nat k
end.

End Binarize.

Arguments BinInt {F} z.
Arguments BinFloat {F} f.
Arguments BinNone {F}.
Arguments below_bin_min {F} int_lt_float float_is_zero bin_min count.
Arguments scale_bin_min {F} float_gt float_lt float_zero float_one
  int_times_float n bin_min.
Arguments label_clusters {F} int_lt_float float_is_zero bin_min binarized i
  rows new_labels.
Arguments binarize {F} float_gt float_lt float_zero float_one int_times_float
  int_lt_float float_is_zero set_order acts thresh bin_min.
Arguments cluster_label {F} int_lt_float float_is_zero bin_min binarized k r.

(** The last position of a row in a list of rows. *)
Fixpoint last_position (r : list bool) (rows : list (list bool)) : option nat :=
match rows with
| [] => None
| row :: rest =>
    match last_position r rest with
    | Some p => Some (S p)
    | None => if row_eqb r row then Some 0%nat else None
    end
end.

(** An iteration order for a set of rows: the order of first occurrence. *)
Definition first_seen_order (rows : list (list bool)) : list (list bool) :=
rev (nodup (list_eq_dec Bool.bool_dec) (rev rows)).

(** [binarize] with integers in the place of floats. *)
Definition binarize_int (acts : list (list Z)) (thresh : Z)
  (bin_min : bin_min_arg Z) : result (list Z) :=
binarize Z.gtb Z.ltb 0 1 Z.mul Z.ltb (Z.eqb 0) first_seen_order acts thresh bin_min.

(** * Properties *)

(** ** Slices and index arrays *)

Section SequenceFacts.

Context {A : Type}.

Lemma slice_from (a : list A) (i : Z) :
  0 <= i <= len a -> slice a (Some i) None = skipn (Z.to_nat i) a.
Proof.
  intros Hi. unfold slice, adjust_index, len in *.
  destruct (i <? 0) eqn:E1; [apply Z.ltb_lt in E1; lia|].
  destruct (Z.of_nat (length a) <=? i) eqn:E2.
  - apply Z.leb_le in E2. assert (i = Z.of_nat (length a)) by lia. subst i.
    rewrite Z.sub_diag, Nat2Z.id. simpl. now rewrite skipn_all.
  - apply firstn_all2. rewrite length_skipn. lia.
Qed.

Lemma slice_to (a : list A) (j : Z) :
  0 <= j <= len a -> slice a None (Some j) = firstn (Z.to_nat j) a.
Proof.
  intros Hj. unfold slice, adjust_index, len in *.
  destruct (j <? 0) eqn:E1; [apply Z.ltb_lt in E1; lia|].
  destruct (Z.of_nat (length a) <=? j) eqn:E2.
  - apply Z.leb_le in E2. assert (j = Z.of_nat (length a)) by lia. subst j.
    now rewrite Z.sub_0_r.
  - now rewrite Z.sub_0_r.
Qed.

Lemma slice_range (a : list A) (i j : Z) :
  0 <= i -> i <= j -> j <= len a ->
  slice a (Some i) (Some j) = firstn (Z.to_nat (j - i)) (skipn (Z.to_nat i) a).
Proof.
  intros Hi Hij Hj. unfold slice, adjust_index, len in *.
  destruct (i <? 0) eqn:E1; [apply Z.ltb_lt in E1; lia|].
  destruct (j <? 0) eqn:E2; [apply Z.ltb_lt in E2; lia|].
  destruct (Z.of_nat (length a) <=? i) eqn:E3;
    destruct (Z.of_nat (length a) <=? j) eqn:E4;
    try apply Z.leb_le in E3; try apply Z.leb_le in E4;
    try apply Z.leb_gt in E3; try apply Z.leb_gt in E4;
    try lia.
  - assert (i = Z.of_nat (length a)) by lia.
    assert (j = Z.of_nat (length a)) by lia. subst. reflexivity.
  - assert (j = Z.of_nat (length a)) by lia. subst. reflexivity.
  - reflexivity.
Qed.

(** A slice whose bounds coincide is empty, wherever the bound lies. *)
Lemma slice_empty (a : list A) (i : Z) : slice a (Some i) (Some i) = [].
Proof.
  unfold slice. now rewrite Z.sub_diag.
Qed.

Lemma take_spec (a : list A) (idx : list nat) (r : list A) :
  take a idx = Some r <-> map (nth_error a) idx = map Some r.
Proof.
  revert r. induction idx as [|i idx IH]; intros r; simpl.
  - split.
    + now intros [= <-].
    + destruct r; [reflexivity | discriminate].
  - destruct (nth_error a i) as [x|] eqn:Ex.
    + destruct (take a idx) as [xs|] eqn:Et.
      * split.
        -- intros [= <-]. simpl. f_equal. now apply IH.
        -- destruct r as [|y r]; [discriminate|]. simpl. intros [= -> Hr].
           apply IH in Hr. now injection Hr as ->.
      * split; [discriminate|].
        destruct r as [|y r]; [discriminate|]. simpl. intros [= _ Hr].
        apply IH in Hr. discriminate.
    + split; [discriminate|].
      destruct r as [|y r]; discriminate.
Qed.

Lemma take_length (a : list A) (idx : list nat) (r : list A) :
  take a idx = Some r -> length r = length idx.
Proof.
  intros H. apply take_spec in H.
  apply (f_equal (@length _)) in H. now rewrite !length_map in H.
Qed.

Lemma nth_error_seq_all (a : list A) :
  map (nth_error a) (seq 0 (length a)) = map Some a.
Proof.
  induction a as [|x a IH]; [reflexivity|].
  simpl. f_equal. rewrite <- seq_shift, map_map. exact IH.
Qed.

Lemma take_identity (a : list A) : take a (seq 0 (length a)) = Some a.
Proof.
  apply take_spec, nth_error_seq_all.
Qed.

Lemma map_Some_inj (r s : list A) : map Some r = map Some s -> r = s.
Proof.
  revert s. induction r as [|x r IH]; intros [|y s]; simpl; try discriminate.
  - reflexivity.
  - intros [= -> H]. f_equal. now apply IH.
Qed.

(** Indexing by a permutation of all positions succeeds and permutes. *)
Lemma take_permutation (a : list A) (idx : list nat) :
  Permutation idx (seq 0 (length a)) ->
  exists r, take a idx = Some r /\ Permutation r a /\ length r = length a.
Proof.
  intros Hp.
  assert (Hm : Permutation (map (nth_error a) idx) (map Some a)).
  { rewrite <- nth_error_seq_all. now apply Permutation_map. }
  apply Permutation_map_inv in Hm.
  destruct Hm as (r & Hr & Hpr).
  exists r. split; [now apply take_spec|]. split.
  - now apply Permutation_sym.
  - symmetry. now apply Permutation_length.
Qed.

(** Indexing a longer or equal array by positions of a shorter one. *)
Lemma take_in_range (a : list A) (idx : list nat) :
  Forall (fun i => (i < length a)%nat) idx ->
  exists r, take a idx = Some r.
Proof.
  induction 1 as [|i idx Hi _ IH]; simpl.
  - now exists [].
  - destruct IH as (r & ->).
    destruct (nth_error a i) as [x|] eqn:Ex.
    + now exists (x :: r).
    + apply nth_error_None in Ex. lia.
Qed.

End SequenceFacts.

Lemma nth_error_combine {A B : Type} (a : list A) (b : list B) (i : nat) :
  nth_error (combine a b) i =
  match nth_error a i, nth_error b i with
  | Some x, Some y => Some (x, y)
  | _, _ => None
  end.
Proof.
  revert b i. induction a as [|x a IH]; intros [|y b] [|i]; simpl; try reflexivity.
  - now destruct (nth_error a i).
  - apply IH.
Qed.

(** Indexing two arrays by one index array indexes their pairs. *)
Lemma take_combine {A B : Type} (a a' : list A) (b b' : list B) (idx : list nat) :
  take a idx = Some a' -> take b idx = Some b' ->
  take (combine a b) idx = Some (combine a' b').
Proof.
  revert a' b'. induction idx as [|i idx IH]; intros a' b'; simpl.
  - now intros [= <-] [= <-].
  - rewrite nth_error_combine.
    destruct (nth_error a i), (take a idx); try discriminate.
    destruct (nth_error b i), (take b idx); try discriminate.
    intros [= <-] [= <-]. now rewrite (IH _ _ eq_refl eq_refl).
Qed.

(** ** The sampler, step by step *)

Ltac exec_in H :=
  unfold next_batch, bind, attr, attr_opt, setattr, py_assert, ret, raise in H;
  simpl in H.

Ltac exec :=
  unfold next_batch, bind, attr, attr_opt, setattr, py_assert, ret, raise;
  simpl.

(** Case analysis on whatever the run in [H] inspects next, innermost
    scrutinee first. *)
Ltac split_run H :=
  repeat (match type of H with
          | context [match ?c with _ => _ end] =>
              lazymatch c with
              | context [match _ with _ => _ end] => fail
              | _ => destruct c eqn:?
              end
          end; simpl in H).

(** Read the final object off a finished run and compare it field by
    field. *)
Ltac final_state H :=
  apply (f_equal (fun x => fst (snd x))) in H; simpl in H; subst;
  unfold same_frame in *; simpl in *; intuition congruence.

Section SamplerFacts.

Variables F L C G : Type.
Variable sh : G -> list nat -> list nat * G.
Hypothesis sh_perm : forall g idx, Permutation (fst (sh g idx)) idx.

Implicit Types (d : DataSet F L C) (g : G).

Lemma shuffle_data_unfold d g :
  _shuffle_data sh (d, g) =
  let idx := fst (sh g (arange (_num_samples d))) in
  let g' := snd (sh g (arange (_num_samples d))) in
  match take (_data d) idx with
  | None => (Raise IndexError, (d, g'))
  | Some data' =>
      if _labeled d then
        match _labels d with
        | None => (Raise AttributeError, (set_data data' d, g'))
        | Some ls =>
            match take ls idx with
            | None => (Raise IndexError, (set_data data' d, g'))
            | Some ls' => (Ok tt, (set_labels ls' (set_data data' d), g'))
            end
        end
      else (Ok tt, (set_data data' d, g'))
  end.
Proof.
  unfold _shuffle_data, bind, attr, attr_opt, setattr, random_shuffle, index_with, ret, raise.
  simpl. destruct (sh g (arange (_num_samples d))) as [idx g']. simpl.
  destruct (take (_data d) idx) as [data'|]; simpl; [|reflexivity].
  destruct (_labeled d); simpl; [|reflexivity].
  destruct (_labels d) as [ls|]; simpl; [|reflexivity].
  destruct (take ls idx); reflexivity.
Qed.

(** Whatever its outcome, a shuffle touches only the training arrays. *)
Lemma shuffle_data_frame d g r d' g' :
  _shuffle_data sh (d, g) = (r, (d', g')) ->
  same_frame d d' /\
  _index_in_epoch d' = _index_in_epoch d /\
  _epochs_trained d' = _epochs_trained d /\
  _batch_number d' = _batch_number d.
Proof.
  rewrite shuffle_data_unfold. cbv zeta. intros H.
  split_run H; injection H as <- <- <-; unfold same_frame; simpl; intuition.
Qed.

(** A shuffle that returns has rearranged rows and labels by one
    permutation of [arange(num_samples)]. *)
Lemma shuffle_data_ok d g u d' g' :
  _shuffle_data sh (d, g) = (Ok u, (d', g')) ->
  exists idx, Permutation idx (arange (_num_samples d)) /\ rearranged_by idx d d'.
Proof.
  rewrite shuffle_data_unfold. cbv zeta. intros H.
  exists (fst (sh g (arange (_num_samples d)))). split; [apply sh_perm|].
  unfold rearranged_by.
  destruct (take (_data d) _) as [data'|] eqn:Ed; [|discriminate].
  destruct (_labeled d) eqn:El.
  - destruct (_labels d) as [ls|] eqn:Els; [|discriminate].
    destruct (take ls _) as [ls'|] eqn:Etl; [|discriminate].
    injection H as _ <- _. simpl. split; [reflexivity|]. split.
    + intros _. now exists ls, ls'.
    + discriminate.
  - injection H as _ <- _. simpl. split; [reflexivity|]. split.
    + discriminate.
    + reflexivity.
Qed.

(** On a consistent object the shuffle always returns. *)
Lemma shuffle_data_consistent d g :
  consistent d ->
  exists d' g', _shuffle_data sh (d, g) = (Ok tt, (d', g')) /\ consistent d'.
Proof.
  intros [Hn Hl]. rewrite shuffle_data_unfold. cbv zeta.
  pose proof (sh_perm g (arange (_num_samples d))) as Hp.
  set (idx := fst (sh g (arange (_num_samples d)))) in *.
  set (g1 := snd (sh g (arange (_num_samples d)))).
  assert (Hseq : arange (_num_samples d) = seq 0 (length (_data d))).
  { unfold arange. rewrite Hn. unfold len. now rewrite Nat2Z.id. }
  rewrite Hseq in Hp.
  destruct (take_permutation (_data d) idx Hp) as (data' & -> & _ & Hlen).
  destruct (_labeled d) eqn:El.
  - destruct (Hl eq_refl) as (ls & -> & Hls).
    assert (Hp' : Permutation idx (seq 0 (length ls))) by now rewrite Hls.
    destruct (take_permutation ls idx Hp') as (ls' & -> & _ & Hlen').
    exists (set_labels ls' (set_data data' d)), g1. split; [reflexivity|].
    split; simpl.
    + unfold len in *. lia.
    + intros _. exists ls'. split; [reflexivity|lia].
  - exists (set_data data' d), g1. split; [reflexivity|].
    split; simpl.
    + unfold len in *. lia.
    + rewrite El. discriminate.
Qed.

(** Rows and labels rearranged by one index array stay paired. *)
Lemma rearranged_paired idx d d' :
  _labeled d = true -> rearranged_by idx d d' ->
  take (paired d) idx = Some (paired d').
Proof.
  intros El (Hd & Hl & _). destruct (Hl El) as (ls & ls' & E1 & E2 & Ht).
  unfold paired. rewrite E1, E2. now apply take_combine.
Qed.

Lemma paired_permutation idx d d' :
  consistent d -> _labeled d = true ->
  Permutation idx (arange (_num_samples d)) ->
  take (paired d) idx = Some (paired d') ->
  Permutation (paired d') (paired d).
Proof.
  intros [Hn Hl] El Hp Ht. destruct (Hl El) as (ls & Els & Hlen).
  assert (Hlp : length (paired d) = length (_data d)).
  { unfold paired. rewrite Els, length_combine. lia. }
  unfold arange in Hp. rewrite Hn in Hp. unfold len in Hp.
  rewrite Nat2Z.id, <- Hlp in Hp.
  destruct (take_permutation (paired d) idx Hp) as (r & Hr & Hpr & _).
  rewrite Ht in Hr. now injection Hr as <-.
Qed.

(** The identity arrangement. *)
Lemma rearranged_refl d :
  consistent d -> rearranged_by (arange (_num_samples d)) d d.
Proof.
  intros [Hn Hl]. unfold rearranged_by, arange. rewrite Hn. unfold len.
  rewrite Nat2Z.id. split; [apply take_identity|]. split; [|reflexivity].
  intros El. destruct (Hl El) as (ls & Els & Hlen).
  exists ls, ls. rewrite <- Hlen. auto using take_identity.
Qed.

(** The assertion is the first statement: a refused call changes nothing. *)
Lemma next_batch_rejects d g b :
  _num_samples d < b ->
  next_batch sh b (d, g) = (Raise AssertionError, (d, g)).
Proof.
  intros Hb. exec.
  destruct (Z.leb_spec b (_num_samples d)); [lia|reflexivity].
Qed.

(** A batch that ends inside the epoch. *)
Lemma next_batch_inside d g b ls :
  b <= _num_samples d ->
  _index_in_epoch d + b <= _num_samples d ->
  (_labeled d = true -> _labels d = Some ls) ->
  let start := _index_in_epoch d in
  let data_batch := slice (_data d) (Some start) (Some (start + b)) in
  next_batch sh b (d, g) =
  (Ok (if _labeled d
       then LabeledBatch data_batch (slice ls (Some start) (Some (start + b)))
       else DataBatch data_batch),
   (set_batch_number (_batch_number d + 1) (set_index_in_epoch (start + b) d), g)).
Proof.
  intros Hb Hin Hl. exec.
  destruct (Z.leb_spec b (_num_samples d)); [|lia]. simpl.
  destruct (Z.ltb_spec (_num_samples d) (_index_in_epoch d + b)); [lia|]. simpl.
  destruct (_labeled d) eqn:El; simpl.
  - rewrite (Hl eq_refl). simpl. rewrite El. reflexivity.
  - rewrite El. reflexivity.
Qed.

(** A batch that runs over the end of the epoch, given the outcome of the
    reshuffle (if one is due). *)
Lemma next_batch_wrap d g b ls d2 g2 ls2 :
  b <= _num_samples d ->
  _num_samples d < _index_in_epoch d + b ->
  (_labeled d = true -> _labels d = Some ls) ->
  let start := _index_in_epoch d in
  let d1 := set_batch_number 0 (set_epochs_trained (_epochs_trained d + 1) d) in
  (if _shuffle d then _shuffle_data sh (d1, g) else (Ok tt, (d1, g)))
  = (Ok tt, (d2, g2)) ->
  (_labeled d = true -> _labels d2 = Some ls2) ->
  let remaining := b - (_num_samples d - start) in
  let data_batch :=
    slice (_data d) (Some start) None ++ slice (_data d2) None (Some remaining) in
  next_batch sh b (d, g) =
  (Ok (if _labeled d
       then LabeledBatch data_batch
              (slice ls (Some start) None ++ slice ls2 None (Some remaining))
       else DataBatch data_batch),
   (set_batch_number 1 (set_index_in_epoch remaining d2), g2)).
Proof.
  intros Hb Hin Hl start d1 Hs Hl2 remaining data_batch.
  assert (Hf : same_frame d1 d2 /\ _index_in_epoch d2 = _index_in_epoch d1 /\
               _epochs_trained d2 = _epochs_trained d1 /\
               _batch_number d2 = _batch_number d1).
  { destruct (_shuffle d).
    - now apply shuffle_data_frame in Hs.
    - injection Hs as <- <-. unfold same_frame. intuition. }
  destruct Hf as ((_ & _ & Hlab & _) & _ & _ & Hbn).
  simpl in Hlab, Hbn.
  assert (Hrun : (if _shuffle d then _shuffle_data sh else fun w => (Ok tt, w)) (d1, g)
                 = (Ok tt, (d2, g2))) by (destruct (_shuffle d); exact Hs).
  exec.
  destruct (Z.leb_spec b (_num_samples d)); [|lia]. simpl.
  destruct (Z.ltb_spec (_num_samples d) (_index_in_epoch d + b)); [|lia]. simpl.
  fold d1.
  destruct (_labeled d) eqn:El; simpl.
  - rewrite (Hl eq_refl). simpl. rewrite Hrun. simpl. rewrite Hlab. simpl.
    rewrite (Hl2 eq_refl). simpl. rewrite Hlab, Hbn. reflexivity.
  - rewrite Hrun. simpl. rewrite Hlab. simpl. rewrite Hlab, Hbn. reflexivity.
Qed.

(** Whatever its outcome, a call touches only the counters and the training
    arrays. *)
Lemma next_batch_frame_any d g b r d' g' :
  next_batch sh b (d, g) = (r, (d', g')) -> same_frame d d'.
Proof.
  intros H.
  assert (Hsh : forall d1 r1 d2 g2,
             same_frame d d1 -> _shuffle_data sh (d1, g) = (r1, (d2, g2)) ->
             same_frame d d2).
  { intros d1 r1 d2 g2 H1 Es. apply shuffle_data_frame in Es.
    destruct Es as (Hf & _).
    unfold same_frame in *; simpl in *; intuition congruence. }
  exec_in H.
  destruct (b <=? _num_samples d); simpl in H; [|now final_state H].
  destruct (_num_samples d <? _index_in_epoch d + b); simpl in H;
    [|split_run H; now final_state H].
  set (d1 := set_batch_number 0 (set_epochs_trained (_epochs_trained d + 1) d)) in *.
  assert (H1 : same_frame d d1) by (unfold same_frame; simpl; intuition).
  destruct (_labeled d); simpl in H.
  - destruct (_labels d); simpl in H; [|now final_state H].
    destruct (_shuffle d); simpl in H.
    + destruct (_shuffle_data sh (d1, g)) as [r1 [d2 g2]] eqn:Es.
      specialize (Hsh _ _ _ _ H1 Es).
      destruct r1; simpl in H; [|now final_state H].
      split_run H; now final_state H.
    + split_run H; now final_state H.
  - destruct (_shuffle d); simpl in H.
    + destruct (_shuffle_data sh (d1, g)) as [r1 [d2 g2]] eqn:Es.
      specialize (Hsh _ _ _ _ H1 Es).
      destruct r1; simpl in H; [|now final_state H].
      split_run H; now final_state H.
    + split_run H; now final_state H.
Qed.

Lemma consistent_counters d e bn :
  consistent d -> consistent (set_batch_number bn (set_epochs_trained e d)).
Proof.
  intros [Hn Hl]. split; simpl; assumption.
Qed.

(** The reshuffle due at a wrap, on a consistent object: it returns, and the
    arrays are those of before, rearranged by a permutation (the identity
    when shuffling is off). *)
Lemma wrap_reshuffle d g :
  consistent d ->
  let d1 := set_batch_number 0 (set_epochs_trained (_epochs_trained d + 1) d) in
  exists d2 g2 idx,
    (if _shuffle d then _shuffle_data sh (d1, g) else (Ok tt, (d1, g)))
    = (Ok tt, (d2, g2)) /\
    Permutation idx (arange (_num_samples d)) /\
    rearranged_by idx d d2 /\
    (_shuffle d = false -> d2 = d1 /\ g2 = g) /\
    consistent d2 /\
    same_frame d d2 /\
    _epochs_trained d2 = _epochs_trained d + 1 /\
    _batch_number d2 = 0 /\
    _index_in_epoch d2 = _index_in_epoch d.
Proof.
  intros Hc d1.
  assert (Hc1 : consistent d1) by now apply consistent_counters.
  destruct (_shuffle d) eqn:Esh.
  - destruct (shuffle_data_consistent d1 g Hc1) as (d2 & g2 & Hs & Hc2).
    destruct (shuffle_data_ok _ _ _ _ _ Hs) as (idx & Hp & Hr).
    destruct (shuffle_data_frame _ _ _ _ _ Hs) as (Hf & Hi & He & Hb).
    exists d2, g2, idx.
    split; [exact Hs|]. split; [exact Hp|].
    split. { destruct Hr as (R1 & R2 & R3). repeat split; assumption. }
    split; [discriminate|]. split; [exact Hc2|].
    split. { unfold same_frame in *; simpl in *; intuition. }
    simpl in *. auto.
  - exists d1, g, (arange (_num_samples d)).
    split; [reflexivity|]. split; [apply Permutation_refl|].
    split. { destruct (rearranged_refl d Hc) as (R1 & R2 & R3).
             repeat split; assumption. }
    split; [auto|]. split; [exact Hc1|].
    split. { unfold same_frame; simpl; intuition. }
    simpl. auto.
Qed.

(** What a wrapping call does on a consistent object. *)
Lemma next_batch_wrap_spec d g b :
  consistent d ->
  _index_in_epoch d <= _num_samples d ->
  0 < b <= _num_samples d ->
  _num_samples d < _index_in_epoch d + b ->
  exists bt d' g' idx,
    next_batch sh b (d, g) = (Ok bt, (d', g')) /\
    Permutation idx (arange (_num_samples d)) /\
    rearranged_by idx d d' /\
    (_shuffle d = false -> _data d' = _data d /\ _labels d' = _labels d /\ g' = g) /\
    batch_data bt =
      skipn (Z.to_nat (_index_in_epoch d)) (_data d) ++
      firstn (Z.to_nat (b - (_num_samples d - _index_in_epoch d))) (_data d') /\
    (_labeled d = true ->
     exists ls ls', _labels d = Some ls /\ _labels d' = Some ls' /\
       batch_labels bt =
         Some (skipn (Z.to_nat (_index_in_epoch d)) ls ++
               firstn (Z.to_nat (b - (_num_samples d - _index_in_epoch d))) ls')) /\
    (_labeled d = false -> batch_labels bt = None) /\
    _epochs_trained d' = _epochs_trained d + 1 /\
    _batch_number d' = 1 /\
    _index_in_epoch d' = b - (_num_samples d - _index_in_epoch d) /\
    len (batch_data bt) = b /\
    consistent d'.
Proof.
  intros Hc Hi Hb Hw.
  destruct (wrap_reshuffle d g Hc) as
    (d2 & g2 & idx & Hs & Hp & Hr & Hoff & Hc2 & Hf & He & Hbn & Hidx).
  set (rem := b - (_num_samples d - _index_in_epoch d)).
  assert (Hlab2 : _labeled d2 = _labeled d) by apply Hf.
  assert (Hn2 : _num_samples d2 = _num_samples d) by apply Hf.
  destruct Hc as [Hn Hl]. destruct Hc2 as [Hn2' Hl2].
  assert (Hlen2 : len (_data d2) = _num_samples d) by congruence.
  assert (Hex : exists ls ls2,
             (_labeled d = true -> _labels d = Some ls /\ length ls = length (_data d)) /\
             (_labeled d = true -> _labels d2 = Some ls2 /\ length ls2 = length (_data d2))).
  { destruct (_labeled d) eqn:El.
    - destruct (Hl eq_refl) as (ls & E1 & E2).
      rewrite Hlab2 in Hl2. destruct (Hl2 eq_refl) as (ls2 & E3 & E4).
      exists ls, ls2. auto.
    - exists [], []. split; discriminate. }
  destruct Hex as (ls & ls2 & Hls & Hls2).
  pose proof (next_batch_wrap d g b ls d2 g2 ls2 (proj2 Hb) Hw
                (fun E => proj1 (Hls E)) Hs (fun E => proj1 (Hls2 E))) as Hrun.
  cbv zeta in Hrun. fold rem in Hrun.
  assert (Hfrom : forall (A : Type) (a : list A), length a = length (_data d) ->
            slice a (Some (_index_in_epoch d)) None = skipn (Z.to_nat (_index_in_epoch d)) a).
  { intros A a Ha. apply slice_from. unfold len in *. lia. }
  assert (Hto : forall (A : Type) (a : list A), length a = length (_data d2) ->
            slice a None (Some rem) = firstn (Z.to_nat rem) a).
  { intros A a Ha. apply slice_to. unfold len in *. lia. }
  rewrite (Hfrom _ (_data d) eq_refl), (Hto _ (_data d2) eq_refl) in Hrun.
  eexists _, _, g2, idx. split; [exact Hrun|].
  split; [exact Hp|].
  split. { destruct Hr as (R1 & R2 & R3). repeat split; simpl; assumption. }
  split. { intros Esh. destruct (Hoff Esh) as [-> ->]. simpl. auto. }
  split. { destruct (_labeled d); reflexivity. }
  split. { intros El. destruct (Hls El) as [E1 E2]. destruct (Hls2 El) as [E3 E4].
           exists ls, ls2. simpl. rewrite El, (Hfrom _ ls E2), (Hto _ ls2 E4). auto. }
  split. { intros El. now rewrite El. }
  split; [simpl; exact He|]. split; [reflexivity|]. split; [reflexivity|].
  split.
  - assert (Hbd : forall bt' : batch F L, batch_data (if _labeled d then LabeledBatch
        (skipn (Z.to_nat (_index_in_epoch d)) (_data d) ++ firstn (Z.to_nat rem) (_data d2))
        (slice ls (Some (_index_in_epoch d)) None ++ slice ls2 None (Some rem))
      else DataBatch (skipn (Z.to_nat (_index_in_epoch d)) (_data d) ++ firstn (Z.to_nat rem) (_data d2)))
      = skipn (Z.to_nat (_index_in_epoch d)) (_data d) ++ firstn (Z.to_nat rem) (_data d2))
      by (intros _; destruct (_labeled d); reflexivity).
    rewrite (Hbd (DataBatch [])). unfold len in *.
    rewrite length_app, length_skipn, length_firstn. lia.
  - split; simpl; [exact Hn2'|]. intros El. apply Hl2. exact El.
Qed.

Lemma firstn_then_more {A : Type} (a c : nat) (l : list A) :
  firstn a l ++ firstn c (skipn a l) = firstn (a + c) l.
Proof.
  revert l. induction a as [|a IH]; intros l; [reflexivity|].
  destruct l as [|x l]; simpl.
  - now rewrite firstn_nil.
  - f_equal. apply IH.
Qed.

(** [k] batches that all end inside the epoch: they are consecutive blocks
    of the training matrix, and only the position and the batch counter
    move. *)
Lemma next_batches_inside k : forall d g b,
  consistent d ->
  0 <= _index_in_epoch d ->
  0 <= b <= _num_samples d ->
  _index_in_epoch d + Z.of_nat k * b <= _num_samples d ->
  exists bs d',
    next_batches sh k b (d, g) = (Ok bs, (d', g)) /\
    concat (map batch_data bs) =
      firstn (Z.to_nat (Z.of_nat k * b)) (skipn (Z.to_nat (_index_in_epoch d)) (_data d)) /\
    Forall (fun bt => len (batch_data bt) = b) bs /\
    length bs = k /\
    _data d' = _data d /\
    _labels d' = _labels d /\
    same_frame d d' /\
    _index_in_epoch d' = _index_in_epoch d + Z.of_nat k * b /\
    _epochs_trained d' = _epochs_trained d /\
    _batch_number d' = _batch_number d + Z.of_nat k.
Proof.
  induction k as [|k IH]; intros d g b Hc Hi Hb Hk.
  - exists [], d. simpl. unfold ret.
    repeat split; try reflexivity; try lia; try constructor.
  - assert (Hstep : _index_in_epoch d + b <= _num_samples d) by nia.
    assert (Hex : exists ls, _labeled d = true -> _labels d = Some ls).
    { destruct Hc as [_ Hl]. destruct (_labeled d).
      - destruct (Hl eq_refl) as (ls & E & _). now exists ls.
      - exists []. discriminate. }
    destruct Hex as (ls & Hls).
    pose proof (next_batch_inside d g b ls (proj2 Hb) Hstep Hls) as H1.
    cbv zeta in H1.
    set (d1 := set_batch_number (_batch_number d + 1)
                 (set_index_in_epoch (_index_in_epoch d + b) d)) in *.
    assert (Hc1 : consistent d1) by (destruct Hc; split; simpl; assumption).
    destruct (IH d1 g b Hc1) as
      (bs & d' & Hrun & Hcat & Hall & Hlen & Hd & Hl & Hf & Hi' & He & Hbn);
      try (simpl; lia).
    simpl in Hcat, Hd, Hl, Hi', He, Hbn.
    eexists (_ :: bs), d'. simpl next_batches. unfold bind at 1.
    rewrite H1. unfold bind at 1. rewrite Hrun. unfold ret.
    split; [reflexivity|].
    assert (Hdata : forall x y, batch_data (if _labeled d then LabeledBatch x y
                                           else @DataBatch F L x) = x)
      by (intros; destruct (_labeled d); reflexivity).
    assert (Hsl : slice (_data d) (Some (_index_in_epoch d)) (Some (_index_in_epoch d + b))
                  = firstn (Z.to_nat b) (skipn (Z.to_nat (_index_in_epoch d)) (_data d))).
    { rewrite slice_range; try lia.
      - f_equal. f_equal. lia.
      - destruct Hc as [Hn _]. now rewrite <- Hn. }
    split.
    { cbn [map concat]. rewrite Hdata, Hcat, Hsl.
      replace (Z.to_nat (_index_in_epoch d + b))
        with (Z.to_nat b + Z.to_nat (_index_in_epoch d))%nat by lia.
      rewrite <- skipn_skipn, firstn_then_more. f_equal.
      assert (0 <= Z.of_nat k * b) by (apply Z.mul_nonneg_nonneg; lia).
      rewrite <- Z2Nat.inj_add by lia. f_equal. lia. }
    split.
    { constructor; [|exact Hall]. rewrite Hdata, Hsl. unfold len.
      rewrite length_firstn, length_skipn. destruct Hc as [Hn _].
      unfold len in Hn. lia. }
    split; [simpl; lia|].
    split; [exact Hd|]. split; [exact Hl|].
    split. { unfold same_frame in *; simpl in *; intuition. }
    split; [lia|]. split; [exact He|]. lia.
Qed.

(** ** The sampler claims *)

(** C1.  On a sampler state with [0 < batch_size <= num_samples] whose batch
    would overrun the epoch, [next_batch] returns the tail rows
    [index_in_epoch ..] of the matrix as it was, followed by the first
    [remaining = batch_size - (num_samples - index_in_epoch)] rows of the
    matrix as it is afterwards (rearranged by a permutation when shuffling is
    on, untouched otherwise); labels go the same way; [epochs_trained] grows by
    one, [batch_number] becomes 1, [index_in_epoch] becomes [remaining], and the
    batch has [batch_size] rows.  With ten rows, batches of four and no
    shuffling, the third call returns rows 8, 9, 0, 1 and leaves
    [epochs_trained = 1], [batch_number = 1], [index_in_epoch = 2]. *)
Theorem next_batch_wraparound :
  (forall d g b,
     consistent d ->
     _index_in_epoch d <= _num_samples d ->
     0 < b <= _num_samples d ->
     _index_in_epoch d + b > _num_samples d ->
     exists bt d' g' idx,
       next_batch sh b (d, g) = (Ok bt, (d', g')) /\
       Permutation idx (arange (_num_samples d)) /\
       rearranged_by idx d d' /\
       (_shuffle d = false ->
        _data d' = _data d /\ _labels d' = _labels d /\ g' = g) /\
       batch_data bt =
         skipn (Z.to_nat (_index_in_epoch d)) (_data d) ++
         firstn (Z.to_nat (b - (_num_samples d - _index_in_epoch d))) (_data d') /\
       (_labeled d = true ->
        exists ls ls', _labels d = Some ls /\ _labels d' = Some ls' /\
          batch_labels bt =
            Some (skipn (Z.to_nat (_index_in_epoch d)) ls ++
                  firstn (Z.to_nat (b - (_num_samples d - _index_in_epoch d))) ls')) /\
       (_labeled d = false -> batch_labels bt = None) /\
       _epochs_trained d' = _epochs_trained d + 1 /\
       _batch_number d' = 1 /\
       _index_in_epoch d' = b - (_num_samples d - _index_in_epoch d) /\
       len (batch_data bt) = b /\
       consistent d') /\
  (forall g, exists s0 s3,
     __init__ sh false false (keywords (index_rows 10) None) g = (Ok s0, g) /\
     next_batches sh 3 4 (s0, g) =
       (Ok [DataBatch [[0]; [1]; [2]; [3]];
            DataBatch [[4]; [5]; [6]; [7]];
            DataBatch [[8]; [9]; [0]; [1]]], (s3, g)) /\
     _epochs_trained s3 = 1 /\ _batch_number s3 = 1 /\ _index_in_epoch s3 = 2).
Proof.
  split.
  - intros d g b Hc Hi Hb Hw. apply next_batch_wrap_spec; try assumption. lia.
  - intros g. eexists. eexists. split; [reflexivity|].
    split; [reflexivity|]. repeat split.
Qed.

(** C2, as the code has it.  From a state at the start of an epoch with
    shuffling off, and a batch size that divides the sample count,
    [num_samples / batch_size] calls return batches of [batch_size] rows whose
    concatenation is the training matrix, row for row; [epochs_trained] does not
    move over these calls, the position ends at [num_samples], and it is the
    next call that raises [epochs_trained] by one. *)
Theorem epoch_coverage d g b :
  consistent d ->
  _index_in_epoch d = 0 ->
  _shuffle d = false ->
  0 < b ->
  (b | _num_samples d) ->
  exists bs d',
    next_batches sh (Z.to_nat (_num_samples d / b)) b (d, g) = (Ok bs, (d', g)) /\
    concat (map batch_data bs) = _data d /\
    Forall (fun bt => len (batch_data bt) = b) bs /\
    _data d' = _data d /\
    _epochs_trained d' = _epochs_trained d /\
    _index_in_epoch d' = _num_samples d /\
    (0 < _num_samples d ->
     exists bt d'',
       next_batch sh b (d', g) = (Ok bt, (d'', g)) /\
       _epochs_trained d'' = _epochs_trained d + 1).
Proof.
  intros Hc Hi Hsh Hb [q Hq].
  assert (Hn0 : 0 <= _num_samples d).
  { destruct Hc as [Hn _]. rewrite Hn. unfold len. lia. }
  assert (Hq0 : 0 <= q) by nia.
  assert (Hdiv : _num_samples d / b = q) by (rewrite Hq; apply Z.div_mul; lia).
  rewrite Hdiv.
  assert (Hbn : b <= _num_samples d \/ _num_samples d = 0).
  { destruct (Z.eq_dec q 0) as [-> | Hne]; [right; lia|left].
    assert (1 <= q) by lia. nia. }
  destruct Hbn as [Hbn | Hz].
  - destruct (next_batches_inside (Z.to_nat q) d g b Hc) as
      (bs & d' & Hrun & Hcat & Hall & Hlen & Hd & Hl & Hf & Hi' & He & Hbn');
      try lia.
    rewrite Z2Nat.id in Hcat, Hi' by lia.
    exists bs, d'. split; [exact Hrun|].
    split.
    { rewrite Hcat, Hi. simpl skipn. rewrite <- Hq. destruct Hc as [Hn _].
      rewrite Hn. unfold len. rewrite Nat2Z.id. apply firstn_all. }
    split; [exact Hall|]. split; [exact Hd|]. split; [exact He|].
    split; [lia|].
    intros Hpos.
    assert (Hc' : consistent d').
    { destruct Hc as [Hn Hlab]. destruct Hf as (_ & _ & Fl & _ & Fn & _).
      split; [congruence|]. rewrite Fl, Hl, Hd. exact Hlab. }
    assert (Fn : _num_samples d' = _num_samples d) by apply Hf.
    assert (Fs : _shuffle d' = false) by (destruct Hf as (_ & _ & _ & -> & _); exact Hsh).
    destruct (next_batch_wrap_spec d' g b Hc') as
      (bt & d'' & g'' & idx & Hrun' & _ & _ & Hoff & _ & _ & _ & He' & _); try lia.
    destruct (Hoff Fs) as (_ & _ & ->).
    exists bt, d''. split; [exact Hrun'|]. lia.
  - assert (Hq1 : q = 0) by nia. rewrite Hq1. simpl.
    exists [], d. unfold ret. repeat split; try assumption; try constructor.
    + destruct Hc as [Hn _]. rewrite Hz in Hn. unfold len in Hn.
      destruct (_data d); [reflexivity|simpl in Hn; lia].
    + lia.
    + lia.
Qed.

(** C3, as the code has it.  On a consistent object [next_batch] raises (an
    [AssertionError], before touching anything) exactly when
    [batch_size > num_samples]; every [batch_size <= num_samples] returns a
    batch, zero and negative sizes included, and [batch_size = 0] returns an
    empty batch, leaves the position alone and still counts one batch. *)
Theorem next_batch_precondition d g b :
  consistent d ->
  (_num_samples d < b ->
   next_batch sh b (d, g) = (Raise AssertionError, (d, g))) /\
  (b <= _num_samples d ->
   exists bt d' g', next_batch sh b (d, g) = (Ok bt, (d', g'))) /\
  (b = 0 -> _index_in_epoch d <= _num_samples d ->
   exists bt d',
     next_batch sh b (d, g) = (Ok bt, (d', g)) /\
     batch_data bt = [] /\
     _index_in_epoch d' = _index_in_epoch d /\
     _batch_number d' = _batch_number d + 1).
Proof.
  intros Hc.
  assert (Hex : exists ls, _labeled d = true -> _labels d = Some ls).
  { destruct Hc as [_ Hl]. destruct (_labeled d).
    - destruct (Hl eq_refl) as (ls & E & _). now exists ls.
    - exists []. discriminate. }
  destruct Hex as (ls & Hls).
  split; [apply next_batch_rejects|]. split.
  - intros Hb.
    destruct (Z.le_gt_cases (_index_in_epoch d + b) (_num_samples d)) as [Hin | Hw].
    + pose proof (next_batch_inside d g b ls Hb Hin Hls) as H1.
      cbv zeta in H1. rewrite H1. eauto.
    + destruct (wrap_reshuffle d g Hc) as
        (d2 & g2 & idx & Hs & _ & _ & _ & Hc2 & Hf & _).
      assert (Hex2 : exists ls2, _labeled d = true -> _labels d2 = Some ls2).
      { destruct Hc2 as [_ Hl2]. destruct Hf as (_ & _ & Fl & _).
        rewrite Fl in Hl2. destruct (_labeled d).
        - destruct (Hl2 eq_refl) as (ls2 & E & _). now exists ls2.
        - exists []. discriminate. }
      destruct Hex2 as (ls2 & Hls2).
      pose proof (next_batch_wrap d g b ls d2 g2 ls2 Hb Hw Hls Hs Hls2) as H1.
      cbv zeta in H1. rewrite H1. eauto.
  - intros -> Hi.
    assert (Hb : 0 <= _num_samples d).
    { destruct Hc as [Hn _]. rewrite Hn. unfold len. lia. }
    pose proof (next_batch_inside d g 0 ls Hb ltac:(lia) Hls) as H1.
    cbv zeta in H1. rewrite H1. eexists _, _. split; [reflexivity|].
    rewrite Z.add_0_r, !slice_empty. simpl.
    destruct (_labeled d); simpl; auto with zarith.
Qed.

(** A call that returns has left the training arrays as they were, unless
    it wrapped with shuffling on; either way they are the old ones rearranged
    by a permutation of all positions. *)
Lemma next_batch_rearranges d g b bt d' g' :
  consistent d ->
  next_batch sh b (d, g) = (Ok bt, (d', g')) ->
  (exists idx,
     Permutation idx (arange (_num_samples d)) /\ rearranged_by idx d d') /\
  (_num_samples d < _index_in_epoch d + b /\ _shuffle d = true \/
   _data d' = _data d /\ _labels d' = _labels d) /\
  consistent d'.
Proof.
  intros Hc Hrun.
  assert (Hex : exists ls, _labeled d = true -> _labels d = Some ls).
  { destruct Hc as [_ Hl]. destruct (_labeled d).
    - destruct (Hl eq_refl) as (ls & E & _). now exists ls.
    - exists []. discriminate. }
  destruct Hex as (ls & Hls).
  destruct (Z.lt_ge_cases (_num_samples d) b) as [Hbig | Hb].
  { rewrite next_batch_rejects in Hrun by assumption. discriminate. }
  destruct (Z.le_gt_cases (_index_in_epoch d + b) (_num_samples d)) as [Hin | Hw].
  - pose proof (next_batch_inside d g b ls Hb Hin Hls) as H1.
    cbv zeta in H1. rewrite H1 in Hrun.
    apply (f_equal (fun x => fst (snd x))) in Hrun. simpl in Hrun. subst d'.
    split.
    { exists (arange (_num_samples d)). split; [apply Permutation_refl|].
      destruct (rearranged_refl d Hc) as (R1 & R2 & R3).
      repeat split; assumption. }
    split; [right; split; reflexivity|].
    destruct Hc as [Hn Hl]. split; simpl; assumption.
  - destruct (wrap_reshuffle d g Hc) as
      (d2 & g2 & idx & Hs & Hp & Hr & Hoff & Hc2 & Hf & _).
    assert (Hex2 : exists ls2, _labeled d = true -> _labels d2 = Some ls2).
    { destruct Hc2 as [_ Hl2]. destruct Hf as (_ & _ & Fl & _).
      rewrite Fl in Hl2. destruct (_labeled d).
      - destruct (Hl2 eq_refl) as (ls2 & E & _). now exists ls2.
      - exists []. discriminate. }
    destruct Hex2 as (ls2 & Hls2).
    pose proof (next_batch_wrap d g b ls d2 g2 ls2 Hb Hw Hls Hs Hls2) as H1.
    cbv zeta in H1. rewrite H1 in Hrun.
    apply (f_equal (fun x => fst (snd x))) in Hrun. simpl in Hrun. subst d'.
    split.
    { exists idx. split; [exact Hp|].
      destruct Hr as (R1 & R2 & R3). repeat split; assumption. }
    split.
    { destruct (_shuffle d) eqn:Esh; [left; split; [lia|reflexivity]|right].
      destruct (Hoff eq_refl) as [-> _]. split; reflexivity. }
    destruct Hc2 as [Hn2 Hl2]. split; simpl; assumption.
Qed.

(** C4.  On a labeled set the shuffle draws one permutation of
    [arange(num_samples)] and indexes both the training rows and the training
    labels by it, so each row keeps its label: the pairs (row, label) after a
    shuffle are the pairs before it, rearranged.  This holds for
    [_shuffle_data] itself, for every call of [next_batch] (which reshuffles
    when it wraps), and for the shuffle that the constructor performs. *)
Theorem shuffle_keeps_pairs :
  (forall d g, consistent d -> _labeled d = true ->
     exists d' g' idx,
       _shuffle_data sh (d, g) = (Ok tt, (d', g')) /\
       Permutation idx (arange (_num_samples d)) /\
       rearranged_by idx d d' /\
       take (paired d) idx = Some (paired d') /\
       Permutation (paired d') (paired d)) /\
  (forall d g b bt d' g', consistent d -> _labeled d = true ->
     next_batch sh b (d, g) = (Ok bt, (d', g')) ->
     exists idx,
       Permutation idx (arange (_num_samples d)) /\
       rearranged_by idx d d' /\
       take (paired d) idx = Some (paired d') /\
       Permutation (paired d') (paired d)) /\
  (forall shuffle (dd : data_dict F L C) g d' g',
     __init__ sh shuffle true dd g = (Ok d', g') -> _labeled d' = true ->
     exists data ls idx,
       k_data dd = Some data /\ k_labels dd = Some ls /\
       Permutation idx (arange (len data)) /\
       take (combine data ls) idx = Some (paired d') /\
       Permutation (paired d') (combine data ls)).
Proof.
  split; [|split].
  - intros d g Hc El.
    destruct (shuffle_data_consistent d g Hc) as (d' & g' & Hs & _).
    destruct (shuffle_data_ok _ _ _ _ _ Hs) as (idx & Hp & Hr).
    pose proof (rearranged_paired idx d d' El Hr) as Ht.
    exists d', g', idx. repeat split; try assumption; try apply Hr.
    now apply (paired_permutation idx d d').
  - intros d g b bt d' g' Hc El Hrun.
    destruct (next_batch_rearranges d g b bt d' g' Hc Hrun) as ((idx & Hp & Hr) & _).
    pose proof (rearranged_paired idx d d' El Hr) as Ht.
    exists idx. repeat split; try assumption; try apply Hr.
    now apply (paired_permutation idx d d').
  - intros shuffle dd g d' g' Hinit El'.
    unfold __init__ in Hinit.
    destruct (init_asserts true dd) eqn:Ea; [|discriminate].
    unfold init_asserts in Ea.
    destruct (k_data dd) as [data|] eqn:Ed; [|discriminate].
    destruct (k_labels dd) as [ls|] eqn:Els; [|discriminate].
    apply Z.eqb_eq in Ea. unfold len in Ea. apply Nat2Z.inj in Ea.
    set (self := mkDataSet (updated true (k_labeled dd))
                   (updated shuffle (k_shuffle dd)) data (Some ls) (k_test_data dd)
                   (k_test_labels dd) (k_colnames dd) (k_markers dd) (k_max dd)
                   (k_min dd) (k_components dd) (k_mean_offset dd) (len data) 0 0 0)
      in *.
    assert (Hpair : paired self = combine data ls) by reflexivity.
    assert (Hc : consistent self).
    { split; simpl; [reflexivity|]. intros _. exists ls. split; [reflexivity|lia]. }
    exists data, ls.
    destruct (_shuffle self) eqn:Esh.
    + destruct (_shuffle_data sh (self, g)) as [r [d2 g2]] eqn:Es.
      destruct r as [u|e]; [|discriminate]. injection Hinit as -> ->.
      destruct (shuffle_data_frame _ _ _ _ _ Es) as ((_ & _ & Fl & _) & _).
      assert (El : _labeled self = true) by congruence.
      destruct (shuffle_data_ok _ _ _ _ _ Es) as (idx & Hp & Hr).
      pose proof (rearranged_paired idx self d' El Hr) as Ht.
      exists idx. rewrite <- Hpair. repeat split; try assumption.
      now apply (paired_permutation idx self d').
    + injection Hinit as <- <-.
      exists (arange (len data)).
      split; [reflexivity|]. split; [reflexivity|].
      split; [apply Permutation_refl|].
      rewrite Hpair. split; [|apply Permutation_refl].
      unfold arange, len. rewrite Nat2Z.id.
      replace (length data) with (length (combine data ls))
        by (rewrite length_combine; lia).
      apply take_identity.
Qed.

(** C10.  Whatever it returns or raises, [next_batch] leaves the test
    matrix, the test labels, the [labeled] and [shuffle] flags, the sample
    count and the stored metadata and normalization parameters as they were.
    A call that returns has changed, besides the three counters, at most the
    training matrix and labels, and these only when it wrapped with shuffling
    on, by one common permutation of the rows. *)
Theorem next_batch_frame d g b r d' g' :
  next_batch sh b (d, g) = (r, (d', g')) ->
  same_frame d d' /\
  (forall bt, r = Ok bt -> consistent d ->
     (exists idx,
        Permutation idx (arange (_num_samples d)) /\ rearranged_by idx d d') /\
     (_num_samples d < _index_in_epoch d + b /\ _shuffle d = true \/
      _data d' = _data d /\ _labels d' = _labels d)).
Proof.
  intros Hrun. split.
  - exact (next_batch_frame_any d g b r d' g' Hrun).
  - intros bt -> Hc.
    destruct (next_batch_rearranges d g b bt d' g' Hc Hrun) as (H1 & H2 & _).
    split; assumption.
Qed.

(** C5, as the code has it.  Loading the archive that [save] wrote returns
    a [DataSet] with the test matrix, the test labels, the flags and the stored
    normalization parameters of the original, and with counters reset; its
    training matrix and labels are those of the original rearranged by one
    permutation of the rows, since [load] runs the constructor, which
    reshuffles when the saved [shuffle] flag is set.  With the flag off they
    are equal, row for row. *)
Theorem load_save_roundtrip d g :
  consistent d ->
  exists d' g' idx,
    load sh (save d) g = (Ok d', g') /\
    same_frame d d' /\
    Permutation idx (arange (_num_samples d)) /\
    rearranged_by idx d d' /\
    (_shuffle d = false ->
     _data d' = _data d /\ _labels d' = _labels d /\ g' = g) /\
    _index_in_epoch d' = 0 /\ _epochs_trained d' = 0 /\ _batch_number d' = 0.
Proof.
  intros Hc. pose proof Hc as [Hn Hl].
  unfold load, save, __init__, init_asserts. cbn [k_labeled k_data k_labels].
  assert (Ha : (if _labeled d
                then match _labels d with
                     | Some labels => len (_data d) =? len labels
                     | None => false
                     end
                else true) = true).
  { destruct (_labeled d); [|reflexivity].
    destruct (Hl eq_refl) as (ls & -> & Hlen). apply Z.eqb_eq.
    unfold len. now rewrite Hlen. }
  rewrite Ha. cbn -[_shuffle_data].
  set (self := mkDataSet (_labeled d) (_shuffle d) (_data d) (_labels d)
                 (_test_data d) (_test_labels d) (_colnames d) (_markers d)
                 (_max d) (_min d) (_components d) (_mean_offset d)
                 (len (_data d)) 0 0 0).
  assert (Hcs : consistent self) by (split; simpl; [reflexivity|exact Hl]).
  assert (Hfs : same_frame d self).
  { unfold same_frame; simpl. rewrite Hn. intuition. }
  assert (Hrs : rearranged_by (arange (_num_samples d)) d self).
  { destruct (rearranged_refl d Hc) as (R1 & R2 & R3). repeat split; assumption. }
  destruct (_shuffle d) eqn:Esh.
  - destruct (shuffle_data_consistent self g Hcs) as (d' & g' & Hs & _).
    rewrite Hs.
    destruct (shuffle_data_ok _ _ _ _ _ Hs) as (idx & Hp & Hr).
    destruct (shuffle_data_frame _ _ _ _ _ Hs) as (Hf & Hi & He & Hb).
    exists d', g', idx. split; [reflexivity|].
    split. { unfold same_frame in *; simpl in *; intuition congruence. }
    split. { simpl in Hp. now rewrite Hn. }
    split. { destruct Hr as (R1 & R2 & R3). repeat split; assumption. }
    split; [discriminate|]. simpl in *. auto.
  - exists self, g, (arange (_num_samples d)).
    split; [reflexivity|]. split; [exact Hfs|].
    split; [apply Permutation_refl|]. split; [exact Hrs|].
    simpl. auto.
Qed.

End SamplerFacts.

(** ** The mutual-information estimator *)

Section EstimatorFacts.

Variables F G : Type.
Variable pairwise_distances : list (list F) -> result (list (list F)).
Variable histogram2d :
  list F -> list F -> bin_count F -> result (list (list F) * (list F * list F)).
Variable mutual_info_score :
  list Z -> list Z -> option (list (list F)) -> result F.
Variable k_means :
  list (list F) -> Z -> G -> result (list (list F) * (list Z * F)) * G.
Variable np_sqrt : F -> F.
Variable true_div : Z -> Z -> F.

(** scikit-learn's contracts: the distance matrix of [n] rows, when one is
    returned, is [n] by [n], and a contingency table, when given, is all that
    the score reads. *)
Hypothesis pairwise_square : forall m dm,
  pairwise_distances m = Ok dm ->
  length dm = length m /\ Forall (fun r => length r = length m) dm.
Hypothesis contingency_given : forall a b a' b' h,
  mutual_info_score a b (Some h) = mutual_info_score a' b' (Some h).

Lemma length_concat_rows {A : Type} (m : list (list A)) (w : nat) :
  Forall (fun r => length r = w) m -> length (concat m) = (length m * w)%nat.
Proof.
  induction 1 as [|r m Hr _ IH]; [reflexivity|].
  simpl. rewrite length_app, IH, Hr. reflexivity.
Qed.

Lemma length_flat_distances (m dm : list (list F)) :
  pairwise_distances m = Ok dm ->
  length (concat dm) = (length m * length m)%nat.
Proof.
  intros H. destruct (pairwise_square m dm H) as [Hn Hw].
  rewrite (length_concat_rows _ _ Hw), Hn. reflexivity.
Qed.

(** The slice [[:n*n-1]] of a flattened [n] by [n] matrix keeps its first
    [n*n - 1] entries. *)
Lemma flat_slice (n : nat) (l : list F) :
  length l = (n * n)%nat ->
  slice l None (Some (Z.of_nat n * Z.of_nat n - 1)) = firstn (n * n - 1) l /\
  length (firstn (n * n - 1) l) = (n * n - 1)%nat.
Proof.
  intros Hl. split.
  - destruct n as [|n].
    + destruct l; [reflexivity|discriminate].
    + rewrite slice_to.
      * f_equal. lia.
      * unfold len. rewrite Hl. lia.
  - rewrite length_firstn. lia.
Qed.


(** C8.  With a cluster count, both label assignments come from [k_means]
    on the first argument; the second argument is never read, so two calls that
    differ only in it, from the same generator state, return the same score and
    leave the same generator state. *)
Theorem cluster_method_ignores_y x y1 y2 method k bins g :
  activation_mutual_info pairwise_distances histogram2d mutual_info_score
    k_means np_sqrt true_div x y1 method (Some k) bins g
  = activation_mutual_info pairwise_distances histogram2d mutual_info_score
      k_means np_sqrt true_div x y2 method (Some k) bins g /\
  activation_mutual_info pairwise_distances histogram2d mutual_info_score
    k_means np_sqrt true_div x y1 method (Some k) bins g
  = (and_then (fst (cluster_labels k_means x k g))
       (fun clusters => mutual_info_score (fst clusters) (snd clusters) None),
     snd (cluster_labels k_means x k g)).
Proof.
  split; [reflexivity|].
  unfold activation_mutual_info, cluster_labels.
  destruct (k_means x k g) as [[rx|e] g1]; [|reflexivity].
  destruct (k_means x k g1) as [[ry|e] g2]; reflexivity.
Qed.

End EstimatorFacts.

(** ** The inverse transform *)

(** Whenever [rnaseq_inverse_transform] returns, it returns its first
    argument. *)
Lemma rnaseq_inverse_transform_result {F L C : Type} (fzero : F)
  (fadd fsub fmul : F -> F -> F) (data v : DataSet F L C) x :
  rnaseq_inverse_transform fzero fadd fsub fmul data x = Ok v -> v = data.
Proof.
  unfold rnaseq_inverse_transform, and_then.
  destruct (rnaseq_inverse_transform_x _ _ _ _ data x); [|discriminate].
  now intros [= <-].
Qed.

(** C9.  On the one-component example with no input supplied, the local
    [x] holds the reconstruction [x'' . components + mean_offset] of the
    concatenated train and test rows when the [return] is reached, but the
    function returns the [DataSet] it was given, whose rows are the
    unreconstructed ones. *)
Theorem rnaseq_inverse_transform_returns_data :
  rnaseq_inverse_transform_x 0 Z.add Z.sub Z.mul pca_example None
  = Ok [[12; 20]; [13; 20]] /\
  rnaseq_inverse_transform 0 Z.add Z.sub Z.mul pca_example None
  = Ok pca_example /\
  _data pca_example = [[2]].
Proof.
  repeat split.
Qed.

(** ** Normalization of the CyTOF family *)

Section CytofFacts.

Variables F L C : Type.
Variables float_add float_sub float_mul float_div : F -> F -> F.
Variables float_min float_max : F -> F -> F.
Variable np_arcsinh : F -> F.
Variable float_of_int : Z -> F.
Variable accepted : F -> bool.
Variable zero_range : F -> bool.

Let compress := arcsinh_div5 float_div np_arcsinh float_of_int.
Let rescale := scale_and_shift float_add float_sub float_mul float_div
                 float_of_int zero_range.
Let validated := check_array accepted.

(** One row through the fitted scaler. *)
Lemma transform_row (mins maxs : list F) : forall r,
  let scale := map (fun s => float_div (float_of_int (1 - 0)) s)
                 (handle_zeros_in_scale F float_of_int zero_range
                    (map2 float_sub maxs mins)) in
  map2 float_add (map2 float_mul r scale)
    (map2 (fun m s => float_sub (float_of_int 0) (float_mul m s)) mins scale)
  = rescale mins maxs r.
Proof.
  unfold rescale, scale_and_shift.
  revert maxs. induction mins as [|mn mins IH]; intros [|mx maxs] [|x r];
    simpl; try reflexivity.
  f_equal. exact (IH maxs r).
Qed.

(** The input validation returns its argument or raises [ValueError]. *)
Lemma check_array_cases (X : list (list F)) :
  validated X = Ok X \/ validated X = Raise ValueError.
Proof.
  unfold validated, check_array. destruct X as [|r X]; [now right|].
  destruct (length r =? 0)%nat; [now right|].
  destruct (forallb (forallb accepted) (r :: X)); [now left|now right].
Qed.

Lemma np_concatenate_cases (a b : list (list F)) :
  np_concatenate a b = Ok (a ++ b) \/ np_concatenate a b = Raise ValueError.
Proof.
  unfold np_concatenate. destruct a as [|r a]; [now left|].
  destruct b as [|s b]; [now left|].
  destruct (length r =? length s)%nat; [now left|now right].
Qed.

(** Two validated matrices, one after the other, are validated. *)
Lemma check_array_app (a b : list (list F)) :
  validated a = Ok a -> validated b = Ok b -> validated (a ++ b) = Ok (a ++ b).
Proof.
  unfold validated, check_array. destruct a as [|r a]; [discriminate|].
  destruct b as [|s b]; [discriminate|]. cbn [app].
  destruct (length r =? 0)%nat; [discriminate|].
  destruct (length s =? 0)%nat; [discriminate|].
  destruct (forallb (forallb accepted) (r :: a)) eqn:Ea; [|discriminate].
  destruct (forallb (forallb accepted) (s :: b)) eqn:Eb; [|discriminate].
  intros _ _.
  change (r :: a ++ s :: b) with ((r :: a) ++ s :: b).
  now rewrite forallb_app, Ea, Eb.
Qed.

(** C6, as the code has it.  Take a set of the CyTOF family with a test
    matrix, and write [x'] for [arcsinh(x / 5)].  When the compressed train and
    test matrices are equally wide and each passes scikit-learn's input
    validation (at least one row and one column, accepted entries),
    [load_dataset] replaces both matrices by their compressed forms, fits the
    column minima and maxima on the compressed train rows followed by the
    compressed test rows, maps every entry of both matrices to
    [x' * scale + offset] with [scale = 1 / (max - min)], the range taken as 1 on
    a column where it is zero, and [offset = 0 - min * scale], and stores the
    fitted vectors as [_min] and [_max]; nothing else changes.  Without a test
    matrix the branch raises [AttributeError]; when the widths differ or one of
    the two matrices is refused by the validation, it raises [ValueError]. *)
Theorem cytof_normalization (data : DataSet F L C) :
  (forall test,
     _test_data data = Some test ->
     np_concatenate (compress (_data data)) (compress test)
     = Ok (compress (_data data) ++ compress test) ->
     validated (compress (_data data)) = Ok (compress (_data data)) ->
     validated (compress test) = Ok (compress test) ->
     exists d' mins maxs,
       load_dataset_cytof float_add float_sub float_mul float_div float_min
         float_max np_arcsinh float_of_int accepted zero_range data = Ok d' /\
       reduce_axis0 float_min (compress (_data data) ++ compress test) = Ok mins /\
       reduce_axis0 float_max (compress (_data data) ++ compress test) = Ok maxs /\
       _data d' = map (rescale mins maxs) (compress (_data data)) /\
       _test_data d' = Some (map (rescale mins maxs) (compress test)) /\
       _min d' = Some mins /\
       _max d' = Some maxs /\
       _labels d' = _labels data /\
       _test_labels d' = _test_labels data /\
       _num_samples d' = _num_samples data) /\
  (_test_data data = None ->
   load_dataset_cytof float_add float_sub float_mul float_div float_min
     float_max np_arcsinh float_of_int accepted zero_range data
   = Raise AttributeError) /\
  (forall test,
     _test_data data = Some test ->
     np_concatenate (compress (_data data)) (compress test) = Raise ValueError \/
     validated (compress (_data data)) = Raise ValueError \/
     validated (compress test) = Raise ValueError ->
     load_dataset_cytof float_add float_sub float_mul float_div float_min
       float_max np_arcsinh float_of_int accepted zero_range data
     = Raise ValueError).
Proof.
  split; [|split].
  - intros test Ht Hcat Htrain Htest. unfold load_dataset_cytof.
    rewrite Ht. fold compress. rewrite Hcat. cbn [and_then].
    unfold MinMaxScaler_fit, MinMaxScaler_transform. fold validated.
    rewrite (check_array_app _ _ Htrain Htest), Htrain, Htest. cbn [and_then].
    destruct (compress (_data data) ++ compress test) as [|r0 rest] eqn:EX.
    { destruct (compress (_data data)); [discriminate Htrain|discriminate EX]. }
    unfold reduce_axis0. cbn [and_then].
    eexists _, _, _. split; [reflexivity|].
    split; [reflexivity|]. split; [reflexivity|]. cbn [_data _test_data _min _max
      _labels _test_labels _num_samples data_min_ data_max_ scale_ min_].
    split; [apply map_ext; intros r; apply transform_row|].
    split; [f_equal; apply map_ext; intros r; apply transform_row|].
    repeat split.
  - intros Ht. unfold load_dataset_cytof. now rewrite Ht.
  - intros test Ht Hbad. unfold load_dataset_cytof. rewrite Ht. fold compress.
    destruct (np_concatenate_cases (compress (_data data)) (compress test))
      as [Hcat|Hcat]; rewrite Hcat; [|reflexivity].
    cbn [and_then]. unfold MinMaxScaler_fit, MinMaxScaler_transform.
    fold validated.
    destruct (check_array_cases (compress (_data data) ++ compress test))
      as [Hboth|Hboth]; rewrite Hboth; [|reflexivity].
    cbn [and_then].
    destruct (compress (_data data) ++ compress test) as [|r0 rest] eqn:EX;
      [reflexivity|].
    unfold reduce_axis0. cbn [and_then].
    destruct (check_array_cases (compress (_data data))) as [Htrain|Htrain];
      rewrite Htrain; [|reflexivity].
    cbn [and_then].
    destruct (check_array_cases (compress test)) as [Htest|Htest];
      rewrite Htest; [|reflexivity].
    destruct Hbad as [Hb|[Hb|Hb]]; congruence.
Qed.

End CytofFacts.

(** ** The claims on concrete inputs *)

Lemma reversing_shuffle_perm (g : nat) (idx : list nat) :
  Permutation (fst (reversing_shuffle g idx)) idx.
Proof.
  simpl. apply Permutation_sym, Permutation_rev.
Qed.

Lemma ten_labeled_consistent : consistent ten_labeled_at_8.
Proof.
  split; [reflexivity|]. intros _. eexists. split; reflexivity.
Qed.

Lemma two_labeled_consistent : consistent two_labeled.
Proof.
  split; [reflexivity|]. intros _. eexists. split; reflexivity.
Qed.

Lemma unlabeled_consistent (data : list (list Z)) (i e bn : Z) :
  consistent (mkDataSet (C := unit) (L := Z) false false data None None None
                None None None None None None (len data) i e bn).
Proof.
  split; [reflexivity|]. discriminate.
Qed.

(** The wrap of C1 on ten labeled rows at position 8, batches of four. *)
Lemma next_batch_wraparound_witness :
  exists bt d' g',
    next_batch reversing_shuffle 4 (ten_labeled_at_8, 0%nat) = (Ok bt, (d', g')) /\
    _epochs_trained d' = 1 /\ _batch_number d' = 1 /\ _index_in_epoch d' = 2 /\
    len (batch_data bt) = 4.
Proof.
  destruct (proj1 (next_batch_wraparound Z Z unit nat reversing_shuffle
                     reversing_shuffle_perm)
              ten_labeled_at_8 0%nat 4 ten_labeled_consistent)
    as (bt & d' & g' & idx & Hrun & _ & _ & _ & _ & _ & _ & He & Hb & Hi & Hl & _).
  - simpl. lia.
  - simpl. lia.
  - simpl. lia.
  - exists bt, d', g'. simpl in He, Hi. auto.
Defined.

(** C2 as stated fails: four rows in batches of two take [4 / 2] calls, which
    return all rows once and leave [epochs_trained] at 0, not at 1. *)
Lemma epoch_coverage_counter_stays :
  __init__ reversing_shuffle false false (keywords (index_rows 4) None) 0%nat
  = (Ok four_rows, 0%nat) /\
  exists d',
    next_batches reversing_shuffle (Z.to_nat (4 / 2)) 2 (four_rows, 0%nat)
    = (Ok [DataBatch [[0]; [1]]; DataBatch [[2]; [3]]], (d', 0%nat)) /\
    _epochs_trained d' = _epochs_trained four_rows /\
    _epochs_trained d' <> _epochs_trained four_rows + 1.
Proof.
  split; [reflexivity|]. eexists. split; [reflexivity|]. simpl.
  split; [reflexivity|discriminate].
Qed.

Lemma epoch_coverage_witness :
  exists bs d',
    next_batches reversing_shuffle (Z.to_nat (_num_samples four_rows / 2)) 2
      (four_rows, 0%nat) = (Ok bs, (d', 0%nat)) /\
    concat (map batch_data bs) = _data four_rows /\
    _epochs_trained d' = _epochs_trained four_rows.
Proof.
  destruct (epoch_coverage Z Z unit nat reversing_shuffle reversing_shuffle_perm
              four_rows 0%nat 2)
    as (bs & d' & Hrun & Hcat & _ & _ & He & _).
  - apply (unlabeled_consistent (index_rows 4)).
  - reflexivity.
  - reflexivity.
  - lia.
  - exists 2. reflexivity.
  - exists bs, d'. auto.
Defined.

(** C3 as stated fails: sizes 0 and -1 are not rejected; the first returns an
    empty batch, the second the slice [[0:-1]]. *)
Lemma nonpositive_batch_size_accepted :
  fst (next_batch reversing_shuffle 0 (two_rows, 0%nat)) = Ok (DataBatch []) /\
  fst (next_batch reversing_shuffle (-1) (two_rows, 0%nat)) = Ok (DataBatch [[0]]) /\
  __init__ reversing_shuffle false false (keywords (index_rows 2) None) 0%nat
  = (Ok two_rows, 0%nat).
Proof.
  repeat split.
Qed.

Lemma next_batch_precondition_witness :
  next_batch reversing_shuffle 3 (two_rows, 0%nat)
  = (Raise AssertionError, (two_rows, 0%nat)) /\
  (exists bt d' g',
     next_batch reversing_shuffle 2 (two_rows, 0%nat) = (Ok bt, (d', g'))) /\
  (exists bt d',
     next_batch reversing_shuffle 0 (two_rows, 0%nat) = (Ok bt, (d', 0%nat)) /\
     batch_data bt = []).
Proof.
  pose proof (unlabeled_consistent (index_rows 2) 0 0 0) as Hc.
  split; [|split].
  - apply (proj1 (next_batch_precondition Z Z unit nat reversing_shuffle
                    reversing_shuffle_perm two_rows 0%nat 3 Hc)).
    simpl. lia.
  - apply (proj1 (proj2 (next_batch_precondition Z Z unit nat reversing_shuffle
                           reversing_shuffle_perm two_rows 0%nat 2 Hc))).
    simpl. lia.
  - destruct (proj2 (proj2 (next_batch_precondition Z Z unit nat reversing_shuffle
                              reversing_shuffle_perm two_rows 0%nat 0 Hc))
                eq_refl) as (bt & d' & Hrun & Hb & _).
    + simpl. lia.
    + exists bt, d'. auto.
Defined.

Lemma shuffle_keeps_pairs_witness :
  exists d' g',
    _shuffle_data reversing_shuffle (two_labeled, 0%nat) = (Ok tt, (d', g')) /\
    Permutation (paired d') (paired two_labeled).
Proof.
  destruct (proj1 (shuffle_keeps_pairs Z Z unit nat reversing_shuffle
                     reversing_shuffle_perm)
              two_labeled 0%nat two_labeled_consistent eq_refl)
    as (d' & g' & idx & Hrun & _ & _ & _ & Hp).
  exists d', g'. auto.
Defined.

(** C5 as stated fails: the set below is what the constructor builds, and
    loading its archive returns the training rows in the other order. *)
Lemma load_reorders_rows :
  __init__ reversing_shuffle true true
    (mkDict None None (Some [[1]; [0]]) (Some [11; 10]) (Some [[7]]) (Some [17])
       None None None None None None None None None None) 0%nat
  = (Ok two_labeled, 1%nat) /\
  exists d',
    load reversing_shuffle (save two_labeled) 1%nat = (Ok d', 2%nat) /\
    _data two_labeled = [[0]; [1]] /\
    _data d' = [[1]; [0]] /\
    _data d' <> _data two_labeled.
Proof.
  split; [reflexivity|]. eexists. split; [reflexivity|].
  repeat split. discriminate.
Qed.

Lemma load_save_roundtrip_witness :
  exists d' g',
    load reversing_shuffle (save two_labeled) 0%nat = (Ok d', g') /\
    same_frame two_labeled d'.
Proof.
  destruct (load_save_roundtrip Z Z unit nat reversing_shuffle
              reversing_shuffle_perm two_labeled 0%nat two_labeled_consistent)
    as (d' & g' & idx & Hrun & Hf & _).
  exists d', g'. auto.
Defined.

Lemma next_batch_frame_witness :
  same_frame ten_labeled_at_8
    (fst (snd (next_batch reversing_shuffle 4 (ten_labeled_at_8, 0%nat)))).
Proof.
  apply (next_batch_frame Z Z unit nat reversing_shuffle reversing_shuffle_perm
           ten_labeled_at_8 0%nat 4
           (fst (next_batch reversing_shuffle 4 (ten_labeled_at_8, 0%nat)))
           (fst (snd (next_batch reversing_shuffle 4 (ten_labeled_at_8, 0%nat))))
           (snd (snd (next_batch reversing_shuffle 4 (ten_labeled_at_8, 0%nat))))).
  reflexivity.
Defined.

Lemma row_sum_distances_square (m dm : list (list float)) :
  row_sum_distances m = Ok dm ->
  length dm = length m /\ Forall (fun r => length r = length m) dm.
Proof.
  unfold row_sum_distances. intros [= <-]. split; [apply length_map|].
  apply Forall_forall. intros r Hr. apply in_map_iff in Hr.
  destruct Hr as (x & <- & _). apply length_map.
Qed.

Lemma table_total_contingency (a b a' b' : list Z) (h : list (list float)) :
  table_total a b (Some h) = table_total a' b' (Some h).
Proof.
  reflexivity.
Qed.



(** C6 as stated fails: on a constant column the quotient
    [(x' - min) / (max - min)] is [0 / 0], not a number, while the code, which
    replaces the zero range by 1, stores 0. *)
Lemma constant_column_scaled_to_zero :
  exists d',
    load_dataset_cytof_float constant_column_example = Ok d' /\
    _min d' = Some [0%float] /\
    _max d' = Some [0%float] /\
    _data d' = [[0%float]] /\
    map (minmax_rescale PrimFloat.sub PrimFloat.div [0%float] [0%float])
      (arcsinh_div5 PrimFloat.div arcsinh_at_zero float_of_Z [[0%float]])
    = [[(0 / 0)%float]] /\
    PrimFloat.is_nan (0 / 0)%float = true /\
    _data d'
    <> map (minmax_rescale PrimFloat.sub PrimFloat.div [0%float] [0%float])
         (arcsinh_div5 PrimFloat.div arcsinh_at_zero float_of_Z [[0%float]]).
Proof.
  eexists. split; [vm_compute; reflexivity|].
  split; [reflexivity|]. split; [reflexivity|]. split; [reflexivity|].
  split; [vm_compute; reflexivity|]. split; [vm_compute; reflexivity|].
  intros H. apply (f_equal (fun m => PrimFloat.is_nan (hd 0%float (hd [] m)))) in H.
  vm_compute in H. discriminate.
Qed.

Lemma cytof_normalization_witness :
  exists d' mins maxs,
    load_dataset_cytof_float constant_column_example = Ok d' /\
    _min d' = Some mins /\ _max d' = Some maxs.
Proof.
  destruct (proj1 (cytof_normalization float Z unit PrimFloat.add PrimFloat.sub
                     PrimFloat.mul PrimFloat.div float_smaller float_larger
                     arcsinh_at_zero float_of_Z PrimFloat.is_finite
                     float_is_zero_range constant_column_example)
              [[0%float]] eq_refl eq_refl eq_refl eq_refl)
    as (d' & mins & maxs & Hrun & _ & _ & _ & _ & Hmin & Hmax & _).
  exists d', mins, maxs. auto.
Defined.

(** ** Invariants of the sampler *)

Section SamplerInvariants.

Variables F L C G : Type.
Variable sh : G -> list nat -> list nat * G.
Hypothesis sh_perm : forall g idx, Permutation (fst (sh g idx)) idx.

Implicit Types (d : DataSet F L C) (g : G).

(** A call with a batch size in [1, num_samples], from a position inside the
    epoch, returns exactly [batch_size] rows (and as many labels), keeps the
    object consistent and the position in [1, num_samples], and advances the
    count of rows handed out, [num_samples * epochs_trained + index_in_epoch],
    by [batch_size]; shuffling on or off. *)
Lemma next_batch_valid_step d g b :
  consistent d ->
  0 <= _index_in_epoch d <= _num_samples d ->
  0 < b <= _num_samples d ->
  exists bt d' g',
    next_batch sh b (d, g) = (Ok bt, (d', g')) /\
    len (batch_data bt) = b /\
    (_labeled d = true -> exists lb, batch_labels bt = Some lb /\ len lb = b) /\
    consistent d' /\
    0 < _index_in_epoch d' <= _num_samples d' /\
    _num_samples d' = _num_samples d /\
    _num_samples d' * _epochs_trained d' + _index_in_epoch d'
    = _num_samples d * _epochs_trained d + _index_in_epoch d + b.
Proof.
  intros Hc Hi Hb.
  destruct (Z.le_gt_cases (_index_in_epoch d + b) (_num_samples d)) as [Hin | Hw].
  - pose proof Hc as [Hn Hl].
    assert (Hex : exists ls, (_labeled d = true ->
                              _labels d = Some ls /\ length ls = length (_data d))).
    { destruct (_labeled d).
      - destruct (Hl eq_refl) as (ls & E & E'). now exists ls.
      - exists []. discriminate. }
    destruct Hex as (ls & Hls).
    pose proof (next_batch_inside F L C G sh d g b ls (proj2 Hb) Hin
                  (fun E => proj1 (Hls E))) as H1.
    cbv zeta in H1.
    assert (Hlen : forall (A : Type) (a : list A), length a = length (_data d) ->
              len (slice a (Some (_index_in_epoch d)) (Some (_index_in_epoch d + b))) = b).
    { intros A a Ha. rewrite slice_range; unfold len in *; try lia.
      rewrite length_firstn, length_skipn. lia. }
    eexists _, _, g. split; [exact H1|].
    split. { destruct (_labeled d); simpl; now apply Hlen. }
    split. { intros El. rewrite El. simpl. eexists. split; [reflexivity|].
             apply Hlen. now apply Hls. }
    split. { split; simpl; assumption. }
    simpl. repeat split; lia.
  - destruct (next_batch_wrap_spec F L C G sh sh_perm d g b Hc (proj2 Hi) Hb Hw)
      as (bt & d' & g' & idx & Hrun & _ & Hr & _ & Hbd & Hbl & _ & He & _ & Hi' & Hlen & Hc').
    assert (Hf : same_frame d d') by exact (next_batch_frame_any F L C G sh d g b _ _ _ Hrun).
    assert (Hn' : _num_samples d' = _num_samples d) by apply Hf.
    exists bt, d', g'. split; [exact Hrun|]. split; [exact Hlen|].
    split.
    { intros El. destruct (Hbl El) as (ls & ls' & E1 & E2 & E3).
      eexists. split; [exact E3|].
      destruct Hc as [Hn Hl]. destruct (Hl El) as (ls0 & E0 & Hl0).
      destruct Hc' as [Hn2 Hl2].
      assert (El' : _labeled d' = true) by (destruct Hf as (_ & _ & -> & _); exact El).
      destruct (Hl2 El') as (ls2 & E4 & Hl4).
      assert (ls0 = ls) by congruence. assert (ls2 = ls') by congruence. subst.
      unfold len in *. rewrite length_app, length_skipn, length_firstn. lia. }
    split; [exact Hc'|]. rewrite Hn', He, Hi'. repeat split; lia.
Qed.

(** [k] such calls in a row: [k] batches of [batch_size] rows, and the count
    of rows handed out grows by [k * batch_size].  From the initial state
    this fixes both counters: after [k >= 1] calls
    [epochs_trained = (k*b - 1) / n] and [index_in_epoch = (k*b - 1) mod n + 1]. *)
Theorem next_batches_counters k : forall d g b,
  consistent d ->
  0 <= _index_in_epoch d <= _num_samples d ->
  0 < b <= _num_samples d ->
  exists bs d' g',
    next_batches sh k b (d, g) = (Ok bs, (d', g')) /\
    length bs = k /\
    Forall (fun bt => len (batch_data bt) = b) bs /\
    consistent d' /\
    0 <= _index_in_epoch d' <= _num_samples d' /\
    _num_samples d' = _num_samples d /\
    _num_samples d' * _epochs_trained d' + _index_in_epoch d'
    = _num_samples d * _epochs_trained d + _index_in_epoch d + Z.of_nat k * b /\
    (_index_in_epoch d = 0 -> _epochs_trained d = 0 -> (0 < k)%nat ->
     _epochs_trained d' = (Z.of_nat k * b - 1) / _num_samples d /\
     _index_in_epoch d' = (Z.of_nat k * b - 1) mod _num_samples d + 1).
Proof.
  assert (Main : forall d g b,
    consistent d ->
    0 <= _index_in_epoch d <= _num_samples d ->
    0 < b <= _num_samples d ->
    exists bs d' g',
      next_batches sh k b (d, g) = (Ok bs, (d', g')) /\
      length bs = k /\
      Forall (fun bt => len (batch_data bt) = b) bs /\
      consistent d' /\
      0 <= _index_in_epoch d' <= _num_samples d' /\
      ((0 < k)%nat -> 0 < _index_in_epoch d') /\
      _num_samples d' = _num_samples d /\
      _num_samples d' * _epochs_trained d' + _index_in_epoch d'
      = _num_samples d * _epochs_trained d + _index_in_epoch d + Z.of_nat k * b).
  { induction k as [|k IH]; intros d g b Hc Hi Hb.
    - exists [], d, g. simpl. unfold ret.
      split; [reflexivity|]. split; [reflexivity|]. split; [constructor|].
      split; [exact Hc|]. split; [exact Hi|]. split; [lia|]. split; lia.
    - destruct (next_batch_valid_step d g b Hc Hi Hb)
        as (bt & d1 & g1 & H1 & Hlen & _ & Hc1 & Hi1 & Hn1 & Hsum1).
      destruct (IH d1 g1 b Hc1) as
        (bs & d' & g' & Hrun & Hl & Hall & Hc' & Hi' & Hpos & Hn' & Hsum'); try lia.
      exists (bt :: bs), d', g'. simpl next_batches. unfold bind at 1.
      rewrite H1. unfold bind at 1. rewrite Hrun. unfold ret.
      split; [reflexivity|]. split; [simpl; lia|].
      split; [constructor; assumption|]. split; [exact Hc'|].
      split; [exact Hi'|].
      split.
      { intros _. destruct k; [|apply Hpos; lia].
        simpl in Hrun. unfold ret in Hrun. injection Hrun as _ <- _. lia. }
      split; [lia|]. rewrite Nat2Z.inj_succ. lia. }
  intros d g b Hc Hi Hb.
  destruct (Main d g b Hc Hi Hb) as
    (bs & d' & g' & Hrun & Hl & Hall & Hc' & Hi' & Hpos & Hn' & Hsum).
  exists bs, d', g'. repeat (split; [assumption|]).
  intros Hi0 He0 Hk. specialize (Hpos Hk).
  rewrite Hn' in *. rewrite Hi0, He0 in Hsum.
  set (n := _num_samples d) in *. set (T := Z.of_nat k * b) in *.
  assert (Hdiv : T - 1 = n * _epochs_trained d' + (_index_in_epoch d' - 1)) by lia.
  split.
  - apply (Z.div_unique_pos (T - 1) n _ (_index_in_epoch d' - 1)); lia.
  - rewrite <- (Z.mod_unique_pos (T - 1) n (_epochs_trained d') (_index_in_epoch d' - 1));
      lia.
Qed.

End SamplerInvariants.

(** ** Rows are handed out cyclically when shuffling is off *)

Lemma take_app {A : Type} (a : list A) (i j : list nat) (r s : list A) :
  take a i = Some r -> take a j = Some s -> take a (i ++ j) = Some (r ++ s).
Proof.
  revert r. induction i as [|x i IH]; intros r; simpl.
  - now intros [= <-].
  - destruct (nth_error a x); [|discriminate].
    destruct (take a i) as [r'|]; [|discriminate].
    intros [= <-] Hj. now rewrite (IH r' eq_refl Hj).
Qed.

(** Indexing by consecutive positions is slicing. *)
Lemma take_seq {A : Type} (a : list A) (i c : nat) :
  (i + c <= length a)%nat ->
  take a (seq i c) = Some (firstn c (skipn i a)).
Proof.
  revert a. induction i as [|i IH]; intros a Hl.
  - simpl skipn. revert a Hl. induction c as [|c IHc]; intros a Hl.
    + reflexivity.
    + apply take_spec. destruct a as [|x a]; [simpl in Hl; lia|].
      simpl. f_equal. rewrite <- seq_shift, map_map. simpl.
      apply take_spec, IHc. simpl in Hl. lia.
  - destruct a as [|x a]; [simpl in Hl; lia|].
    apply take_spec. rewrite <- seq_shift, map_map. simpl.
    apply take_spec, IH. simpl in Hl. lia.
Qed.

Lemma cyclic_positions_shift (n i s c : nat) :
  map (fun j => Nat.modulo (i + j) n) (seq s c)
  = map (fun j => Nat.modulo j n) (seq (i + s) c).
Proof.
  revert s. induction c as [|c IH]; intros s; [reflexivity|].
  simpl. f_equal. rewrite IH. now rewrite Nat.add_succ_r.
Qed.

Lemma mod_seq_small (n s c : nat) :
  (s + c <= n)%nat -> map (fun j => Nat.modulo j n) (seq s c) = seq s c.
Proof.
  revert s. induction c as [|c IH]; intros s Hs; [reflexivity|].
  simpl. rewrite Nat.mod_small by lia. f_equal. apply IH. lia.
Qed.

Lemma mod_seq_next (n t c : nat) :
  (t + c <= n)%nat -> map (fun j => Nat.modulo j n) (seq (n + t) c) = seq t c.
Proof.
  revert t. induction c as [|c IH]; intros t Ht; [reflexivity|].
  simpl. f_equal.
  - replace (n + t)%nat with (t + 1 * n)%nat by lia.
    rewrite Nat.Div0.mod_add. apply Nat.mod_small. lia.
  - rewrite <- Nat.add_succ_r. apply IH. lia.
Qed.

(** Positions that stay inside the epoch, and positions that run over its
    end. *)
Lemma cyclic_positions_inside (n i c : nat) :
  (i + c <= n)%nat -> cyclic_positions n i c = seq i c.
Proof.
  intros H. unfold cyclic_positions.
  rewrite cyclic_positions_shift, Nat.add_0_r. now apply mod_seq_small.
Qed.

Lemma cyclic_positions_over (n i c : nat) :
  (i <= n)%nat -> (n < i + c)%nat -> (c <= n)%nat ->
  cyclic_positions n i c = seq i (n - i) ++ seq 0 (c - (n - i)).
Proof.
  intros Hi Hover Hc. unfold cyclic_positions.
  replace c with ((n - i) + (c - (n - i)))%nat at 1 by lia.
  rewrite seq_app, map_app. f_equal.
  - rewrite cyclic_positions_shift, Nat.add_0_r. apply mod_seq_small. lia.
  - rewrite cyclic_positions_shift. simpl.
    replace (i + (n - i))%nat with (n + 0)%nat by lia.
    apply mod_seq_next. lia.
Qed.

(** Going on from a position congruent to [i + c]. *)
Lemma cyclic_positions_app (n i i' c m : nat) :
  Nat.modulo i' n = Nat.modulo (i + c) n ->
  cyclic_positions n i (c + m) = cyclic_positions n i c ++ cyclic_positions n i' m.
Proof.
  intros Hi. unfold cyclic_positions. rewrite seq_app, map_app. f_equal.
  simpl. rewrite <- (Nat.add_0_r c) at 1.
  remember 0%nat as s. clear Heqs. revert s.
  induction m as [|m IH]; intros s; [reflexivity|].
  simpl. f_equal.
  - rewrite (Nat.Div0.add_mod i' s), Hi, <- Nat.Div0.add_mod. f_equal. lia.
  - rewrite <- Nat.add_succ_r. apply IH.
Qed.

Section SamplerCoverage.

Variables F L C G : Type.
Variable sh : G -> list nat -> list nat * G.
Hypothesis sh_perm : forall g idx, Permutation (fst (sh g idx)) idx.

Implicit Types (d : DataSet F L C) (g : G).

(** One call with shuffling off returns the rows at the next [batch_size]
    cyclic positions and leaves the matrix and the generator alone. *)
Lemma next_batch_cyclic_step d g b :
  consistent d ->
  0 <= _index_in_epoch d <= _num_samples d ->
  0 < b <= _num_samples d ->
  _shuffle d = false ->
  exists bt d',
    next_batch sh b (d, g) = (Ok bt, (d', g)) /\
    take (_data d)
      (cyclic_positions (length (_data d)) (Z.to_nat (_index_in_epoch d)) (Z.to_nat b))
    = Some (batch_data bt) /\
    _data d' = _data d /\
    _shuffle d' = false /\
    consistent d' /\
    0 <= _index_in_epoch d' <= _num_samples d' /\
    _num_samples d' = _num_samples d /\
    Nat.modulo (Z.to_nat (_index_in_epoch d')) (length (_data d))
    = Nat.modulo (Z.to_nat (_index_in_epoch d) + Z.to_nat b) (length (_data d)).
Proof.
  intros Hc Hi Hb Hsh. pose proof Hc as [Hn Hl]. unfold len in Hn.
  destruct (Z.le_gt_cases (_index_in_epoch d + b) (_num_samples d)) as [Hin | Hw].
  - assert (Hex : exists ls, _labeled d = true -> _labels d = Some ls).
    { destruct (_labeled d).
      - destruct (Hl eq_refl) as (ls & E & _). now exists ls.
      - exists []. discriminate. }
    destruct Hex as (ls & Hls).
    pose proof (next_batch_inside F L C G sh d g b ls (proj2 Hb) Hin Hls) as H1.
    cbv zeta in H1. eexists _, _. split; [exact H1|].
    split.
    { rewrite cyclic_positions_inside by lia. rewrite take_seq by lia.
      f_equal. rewrite slice_range; unfold len; try lia.
      destruct (_labeled d); simpl; do 2 f_equal; lia. }
    simpl. split; [reflexivity|]. split; [exact Hsh|].
    split; [split; simpl; assumption|]. split; [lia|]. split; [reflexivity|].
    f_equal. lia.
  - destruct (next_batch_wrap_spec F L C G sh sh_perm d g b Hc (proj2 Hi) Hb Hw)
      as (bt & d' & g' & idx & Hrun & _ & _ & Hoff & Hbd & _ & _ & _ & _ & Hi' & _ & Hc').
    destruct (Hoff Hsh) as (Hd & _ & ->).
    assert (Hf : same_frame d d') by exact (next_batch_frame_any F L C G sh d g b _ _ _ Hrun).
    exists bt, d'. split; [exact Hrun|].
    split.
    { rewrite cyclic_positions_over by lia.
      rewrite Hbd, Hd.
      apply take_app.
      - rewrite take_seq by lia. f_equal.
        apply firstn_all2. rewrite length_skipn. lia.
      - rewrite take_seq by lia. simpl skipn. do 2 f_equal. lia. }
    split; [exact Hd|].
    split. { destruct Hf as (_ & _ & _ & -> & _). exact Hsh. }
    split; [exact Hc'|].
    assert (Hn' : _num_samples d' = _num_samples d) by apply Hf.
    split; [lia|]. split; [exact Hn'|].
    rewrite Hi'.
    replace (Z.to_nat (_index_in_epoch d) + Z.to_nat b)%nat
      with (Z.to_nat (b - (_num_samples d - _index_in_epoch d)) + 1 * length (_data d))%nat
      by lia.
    now rewrite Nat.Div0.mod_add.
Qed.

(** With shuffling off, [k] calls with a batch size in [1, num_samples]
    return, in order, the rows at the [k * batch_size] cyclic positions that
    follow the starting position: every run of [num_samples] consecutive rows
    handed out is one full pass over the training matrix. *)
Theorem next_batches_cyclic k : forall d g b,
  consistent d ->
  0 <= _index_in_epoch d <= _num_samples d ->
  0 < b <= _num_samples d ->
  _shuffle d = false ->
  exists bs d',
    next_batches sh k b (d, g) = (Ok bs, (d', g)) /\
    _data d' = _data d /\
    take (_data d)
      (cyclic_positions (length (_data d)) (Z.to_nat (_index_in_epoch d))
         (k * Z.to_nat b))
    = Some (concat (map batch_data bs)).
Proof.
  induction k as [|k IH]; intros d g b Hc Hi Hb Hsh.
  - exists [], d. simpl. unfold ret. auto.
  - destruct (next_batch_cyclic_step d g b Hc Hi Hb Hsh)
      as (bt & d1 & H1 & Ht & Hd1 & Hsh1 & Hc1 & Hi1 & Hn1 & Hmod).
    destruct (IH d1 g b Hc1 Hi1 ltac:(lia) Hsh1) as (bs & d' & Hrun & Hd' & Htk).
    exists (bt :: bs), d'. simpl next_batches. unfold bind at 1.
    rewrite H1. unfold bind at 1. rewrite Hrun. unfold ret.
    split; [reflexivity|]. split; [congruence|].
    cbn [map concat]. rewrite Hd1 in Htk.
    replace (S k * Z.to_nat b)%nat with (Z.to_nat b + k * Z.to_nat b)%nat by lia.
    rewrite (cyclic_positions_app _ _ (Z.to_nat (_index_in_epoch d1)) _ _ Hmod).
    now apply take_app.
Qed.

End SamplerCoverage.

(** ** Batches of a labeled set, the constructor, and the length *)

Lemma combine_skipn_both {A B : Type} (i : nat) : forall (a : list A) (b : list B),
  combine (skipn i a) (skipn i b) = skipn i (combine a b).
Proof.
  induction i as [|i IH]; intros a b; [reflexivity|].
  destruct a as [|x a]; [reflexivity|].
  destruct b as [|y b]; simpl.
  - now rewrite combine_nil.
  - apply IH.
Qed.

Lemma combine_app_both {A B : Type} (a1 a2 : list A) (b1 b2 : list B) :
  length a1 = length b1 ->
  combine (a1 ++ a2) (b1 ++ b2) = combine a1 b1 ++ combine a2 b2.
Proof.
  revert b1. induction a1 as [|x a1 IH]; intros [|y b1] Hl; simpl in *;
    try discriminate; [reflexivity|].
  f_equal. apply IH. now injection Hl.
Qed.

Lemma in_firstn_inv {A : Type} (x : A) (n : nat) (l : list A) :
  In x (firstn n l) -> In x l.
Proof.
  intros H. rewrite <- (firstn_skipn n l). apply in_or_app. now left.
Qed.

Lemma in_skipn_inv {A : Type} (x : A) (n : nat) (l : list A) :
  In x (skipn n l) -> In x l.
Proof.
  intros H. rewrite <- (firstn_skipn n l). apply in_or_app. now right.
Qed.

Section SamplerPairs.

Variables F L C G : Type.
Variable sh : G -> list nat -> list nat * G.
Hypothesis sh_perm : forall g idx, Permutation (fst (sh g idx)) idx.

Implicit Types (d : DataSet F L C) (g : G).

(** On a labeled set, the rows and labels of a returned batch are aligned:
    as many labels as rows, and every (row, label) of the batch is a (row,
    label) of the set as it was before the call, also when the batch straddles
    a reshuffle. *)
Theorem batch_pairs_from_dataset d g b bt d' g' :
  consistent d ->
  _labeled d = true ->
  0 <= _index_in_epoch d <= _num_samples d ->
  0 < b <= _num_samples d ->
  next_batch sh b (d, g) = (Ok bt, (d', g')) ->
  exists lb,
    batch_labels bt = Some lb /\
    length lb = length (batch_data bt) /\
    forall p, In p (combine (batch_data bt) lb) -> In p (paired d).
Proof.
  intros Hc El Hi Hb Hrun. pose proof Hc as [Hn Hl]. unfold len in Hn.
  destruct (Hl El) as (ls & Els & Hlen).
  assert (Hp : paired d = combine (_data d) ls) by (unfold paired; now rewrite Els).
  destruct (Z.le_gt_cases (_index_in_epoch d + b) (_num_samples d)) as [Hin | Hw].
  - pose proof (next_batch_inside F L C G sh d g b ls (proj2 Hb) Hin
                  (fun _ => Els)) as H1.
    cbv zeta in H1. rewrite H1, El in Hrun. injection Hrun as <- _ _.
    rewrite !slice_range by (unfold len; lia).
    eexists. split; [reflexivity|]. simpl. split.
    + rewrite !length_firstn, !length_skipn. lia.
    + intros p. rewrite <- combine_firstn, combine_skipn_both, Hp.
      intros H. now apply in_firstn_inv, in_skipn_inv in H.
  - destruct (next_batch_wrap_spec F L C G sh sh_perm d g b Hc (proj2 Hi) Hb Hw)
      as (bt0 & d0 & g0 & idx & Hrun0 & Hperm & Hr & _ & Hbd & Hbl & _ & _ & _ & _ & _ & Hc0).
    rewrite Hrun0 in Hrun. injection Hrun as -> -> ->.
    destruct (Hbl El) as (ls1 & ls2 & E1 & E2 & E3).
    assert (ls1 = ls) by congruence. subst ls1.
    assert (Hf : same_frame d d') by exact (next_batch_frame_any F L C G sh d g b _ _ _ Hrun0).
    assert (El' : _labeled d' = true) by (destruct Hf as (_ & _ & -> & _); exact El).
    destruct Hc0 as [Hn0 Hl0]. destruct (Hl0 El') as (ls2' & E2' & Hlen2).
    assert (ls2' = ls2) by congruence. subst ls2'.
    assert (Hp' : paired d' = combine (_data d') ls2) by (unfold paired; now rewrite E2).
    pose proof (rearranged_paired F L C idx d d' El Hr) as Ht.
    pose proof (paired_permutation F L C idx d d' Hc El Hperm Ht) as Hpp.
    eexists. split; [exact E3|]. rewrite Hbd. split.
    + rewrite !length_app, !length_skipn, !length_firstn. lia.
    + intros p. rewrite combine_app_both by (rewrite !length_skipn; lia).
      rewrite combine_skipn_both, <- combine_firstn, <- Hp, <- Hp'.
      intros H. apply in_app_or in H. destruct H as [H | H].
      * now apply in_skipn_inv in H.
      * apply in_firstn_inv in H. eapply Permutation_in; eassumption.
Qed.

(** [len(dataset)] is the number of train plus test rows, and sampling never
    changes it. *)
Theorem len_unchanged_by_next_batch d g b bt d' g' :
  consistent d ->
  next_batch sh b (d, g) = (Ok bt, (d', g')) ->
  __len__ d' = __len__ d.
Proof.
  intros Hc Hrun.
  destruct (next_batch_rearranges F L C G sh sh_perm d g b bt d' g' Hc Hrun)
    as (_ & _ & [Hn' _]).
  pose proof (next_batch_frame_any F L C G sh d g b _ _ _ Hrun)
    as (Ht & _ & _ & _ & Hn & _).
  destruct Hc as [Hn0 _]. unfold __len__. rewrite Ht.
  destruct (_test_data d); [|reflexivity]. f_equal. congruence.
Qed.

(** The constructor, when its assertions hold and the keywords do not
    override [_labeled]: it returns a consistent object at the initial sampler
    state whose sample count is the row count, whose rows (and labels) are the
    given ones rearranged by a permutation, in the given order when shuffling is
    off. *)
Theorem init_establishes_invariant shuffle labeled (dd : data_dict F L C) g data :
  k_data dd = Some data ->
  (labeled = true ->
   exists ls, k_labels dd = Some ls /\ length ls = length data) ->
  k_labeled dd = None \/ k_labeled dd = Some labeled ->
  exists d' g',
    __init__ sh shuffle labeled dd g = (Ok d', g') /\
    consistent d' /\
    _num_samples d' = len data /\
    _index_in_epoch d' = 0 /\ _epochs_trained d' = 0 /\ _batch_number d' = 0 /\
    _labeled d' = labeled /\
    _shuffle d' = updated shuffle (k_shuffle dd) /\
    _test_data d' = k_test_data dd /\
    Permutation (_data d') data /\
    (_shuffle d' = false ->
     _data d' = data /\ _labels d' = k_labels dd /\ g' = g).
Proof.
  intros Ed Hlab Hov. unfold __init__, init_asserts. rewrite Ed.
  assert (Ha : (if labeled
                then match k_labels dd with
                     | Some labels => len data =? len labels
                     | None => false
                     end
                else true) = true).
  { destruct labeled; [|reflexivity].
    destruct (Hlab eq_refl) as (ls & -> & Hl). apply Z.eqb_eq. unfold len. lia. }
  rewrite Ha.
  assert (Hupd : updated labeled (k_labeled dd) = labeled)
    by (destruct Hov as [-> | ->]; reflexivity).
  set (self := mkDataSet (updated labeled (k_labeled dd))
                 (updated shuffle (k_shuffle dd)) data (k_labels dd) (k_test_data dd)
                 (k_test_labels dd) (k_colnames dd) (k_markers dd) (k_max dd)
                 (k_min dd) (k_components dd) (k_mean_offset dd) (len data) 0 0 0).
  assert (Hc : consistent self).
  { split; [reflexivity|]. simpl. rewrite Hupd. exact Hlab. }
  destruct (_shuffle self) eqn:Esh.
  - destruct (shuffle_data_consistent F L C G sh sh_perm self g Hc)
      as (d' & g' & Hs & Hc').
    rewrite Hs. exists d', g'. split; [reflexivity|].
    destruct (shuffle_data_frame F L C G sh self g _ _ _ Hs)
      as ((Ht & _ & Fl & Fs & Fn & _) & Fi & Fe & Fb).
    destruct (shuffle_data_ok F L C G sh sh_perm self g _ _ _ Hs) as (idx & Hp & (Htk & _)).
    simpl in *.
    repeat (split; [first [assumption | congruence]|]).
    split.
    { unfold arange, len in Hp. rewrite Nat2Z.id in Hp.
      destruct (take_permutation data idx Hp) as (r & Hr & Hpr & _).
      rewrite Htk in Hr. now injection Hr as <-. }
    intros E. congruence.
  - exists self, g. split; [reflexivity|]. split; [exact Hc|].
    split; [reflexivity|]. split; [reflexivity|]. split; [reflexivity|].
    split; [reflexivity|]. split; [exact Hupd|]. split; [reflexivity|].
    split; [reflexivity|]. split; [apply Permutation_refl|]. simpl. auto.
Qed.

(** The constructor raises [AssertionError] exactly when [_data] is missing
    or the set is declared labeled while [_labels] is missing or has another
    row count; it then leaves the generator alone. *)
Theorem init_rejects_iff shuffle labeled (dd : data_dict F L C) g :
  fst (__init__ sh shuffle labeled dd g) = Raise AssertionError <->
  (k_data dd = None \/
   labeled = true /\
   (k_labels dd = None \/
    exists data ls, k_data dd = Some data /\ k_labels dd = Some ls /\
                    length data <> length ls)).
Proof.
  unfold __init__, init_asserts.
  destruct (k_data dd) as [data|] eqn:Ed.
  2:{ simpl. split; [auto|reflexivity]. }
  assert (Hsh : forall (self : DataSet F L C) r w, _shuffle_data sh (self, g) = (r, w) ->
                             r <> Raise AssertionError).
  { intros self r w. rewrite shuffle_data_unfold. cbv zeta. intros H.
    split_run H; injection H as <- _; discriminate. }
  assert (Hok : forall self : DataSet F L C,
             fst (if _shuffle self
                  then match _shuffle_data sh (self, g) with
                       | (Ok _, (self', g')) => (Ok self', g')
                       | (Raise e, (_, g')) => (Raise e, g')
                       end
                  else (Ok self, g)) <> Raise AssertionError).
  { intros self. destruct (_shuffle self); [|discriminate].
    destruct (_shuffle_data sh (self, g)) as [r [d2 g2]] eqn:Es.
    pose proof (Hsh _ _ _ Es) as Hne. destruct r; simpl; congruence. }
  destruct labeled.
  - destruct (k_labels dd) as [ls|] eqn:Els.
    + destruct (Z.eqb_spec (len data) (len ls)) as [E|E].
      * split.
        -- intros H. now apply Hok in H.
        -- intros [H | (_ & [H | (data0 & ls0 & E1 & E2 & E3)])]; try discriminate.
           injection E1 as <-. injection E2 as <-. unfold len in E. lia.
      * simpl. split; [|reflexivity]. intros _. right. split; [reflexivity|].
        right. exists data, ls. repeat split. unfold len in E. lia.
    + simpl. split; [|reflexivity]. intros _. right. auto.
  - split.
    + intros H. now apply Hok in H.
    + intros [H | (H & _)]; discriminate.
Qed.

End SamplerPairs.

(** ** Lengths of elementwise combinations *)

Lemma length_map2 {A B D : Type} (f : A -> B -> D) (u : list A) : forall v : list B,
  length (map2 f u v) = Nat.min (length u) (length v).
Proof.
  induction u as [|a u IH]; intros [|b v]; simpl; auto.
Qed.

(** ** Clusters from binarized activations *)

Lemma row_eqb_eq (r r' : list bool) : row_eqb r r' = true <-> r = r'.
Proof.
  revert r'. induction r as [|a r IH]; intros [|b r']; simpl;
    try (split; [discriminate|discriminate]); [tauto|].
  rewrite andb_true_iff, IH. split.
  - intros [Hab ->]. apply Bool.eqb_prop in Hab. now subst.
  - intros [= -> ->]. split; [apply Bool.eqb_reflx|reflexivity].
Qed.

Lemma row_eqb_sym (r r' : list bool) : row_eqb r r' = row_eqb r' r.
Proof.
  destruct (row_eqb r r') eqn:E.
  - apply row_eqb_eq in E. subst. symmetry. now apply row_eqb_eq.
  - destruct (row_eqb r' r) eqn:E'; [|reflexivity].
    apply row_eqb_eq in E'. subst.
    assert (row_eqb r r = true) by now apply row_eqb_eq. congruence.
Qed.

(** Membership in [np.where(mask)[0]] is the mask. *)
Lemma in_np_where (mask : list bool) (j : nat) :
  existsb (Nat.eqb j) (np_where mask) = nth j mask false.
Proof.
  unfold np_where. destruct (nth j mask false) eqn:E.
  - apply existsb_exists. exists j. split; [|apply Nat.eqb_refl].
    apply filter_In. split; [|exact E]. apply in_seq.
    destruct (Nat.lt_ge_cases j (length mask)) as [H | H]; [lia|].
    rewrite nth_overflow in E by lia. discriminate.
  - destruct (existsb _ _) eqn:Ex; [|reflexivity].
    apply existsb_exists in Ex. destruct Ex as (x & Hin & Hx).
    apply Nat.eqb_eq in Hx. subst x. apply filter_In in Hin.
    destruct Hin as [_ Hin]. congruence.
Qed.

Lemma map2_positions (f : nat -> bool) (v : Z) : forall (a : list Z) mask s,
  length mask = length a ->
  (forall j, (j < length mask)%nat -> f (s + j)%nat = nth j mask false) ->
  map2 (fun j old => if f j then v else old) (seq s (length a)) a
  = map2 (fun (m : bool) old => if m then v else old) mask a.
Proof.
  induction a as [|x a IH]; intros [|m mask] s Hl Hf; simpl in *;
    try discriminate; [reflexivity|].
  f_equal.
  - specialize (Hf 0%nat ltac:(lia)). rewrite Nat.add_0_r in Hf. now rewrite Hf.
  - apply IH; [now injection Hl|]. intros j Hj.
    specialize (Hf (S j) ltac:(lia)). now rewrite Nat.add_succ_r in Hf.
Qed.

(** Assigning at the positions of a mask is a masked update. *)
Lemma assign_at_mask (mask : list bool) (v : Z) (a : list Z) :
  length mask = length a ->
  assign_at (np_where mask) v a
  = map2 (fun (m : bool) old => if m then v else old) mask a.
Proof.
  intros Hl. unfold assign_at. apply map2_positions; [exact Hl|].
  intros j _. simpl. apply in_np_where.
Qed.

Lemma filter_seq_mask (mask : list bool) : forall s,
  length (filter (fun j => nth (j - s) mask false) (seq s (length mask)))
  = length (filter (fun m : bool => m) mask).
Proof.
  induction mask as [|m mask IH]; intros s; [reflexivity|].
  assert (E : filter (fun j => nth (j - s) (m :: mask) false) (seq (S s) (length mask))
              = filter (fun j => nth (j - S s) mask false) (seq (S s) (length mask))).
  { apply filter_ext_in. intros j Hj. apply in_seq in Hj.
    replace (j - s)%nat with (S (j - S s)) by lia. reflexivity. }
  change (seq s (length (m :: mask))) with (s :: seq (S s) (length mask)).
  cbn [filter]. rewrite Nat.sub_diag, E. cbn [nth].
  destruct m; cbn [length]; now rewrite IH.
Qed.

(** [len(subs)] is the number of samples that share the row. *)
Lemma len_np_where (p : list bool -> bool) (B : list (list bool)) :
  len (np_where (map p B)) = len (filter p B).
Proof.
  unfold len, np_where. f_equal.
  pose proof (filter_seq_mask (map p B) 0) as H.
  erewrite filter_ext in H by (intros j; rewrite Nat.sub_0_r; reflexivity).
  rewrite H. clear H. induction B as [|r B IH]; [reflexivity|].
  simpl. destruct (p r); simpl; now rewrite IH.
Qed.

Lemma map2_fuse {A B D E : Type} (f : A -> D -> E) (g : B -> D -> D) (h : A -> B) :
  forall (u : list A) (v : list D),
    map2 f u (map2 g (map h u) v) = map2 (fun a d => f a (g (h a) d)) u v.
Proof.
  induction u as [|a u IH]; intros [|d v]; simpl; try reflexivity.
  f_equal. apply IH.
Qed.

Lemma map2_ext {A B D : Type} (f g : A -> B -> D) :
  (forall a b, f a b = g a b) -> forall u v, map2 f u v = map2 g u v.
Proof.
  intros H. induction u as [|a u IH]; intros [|b v]; simpl; try reflexivity.
  now rewrite H, IH.
Qed.

Section BinarizeFacts.

Variable F : Type.
Variable float_gt : F -> F -> bool.
Variable float_lt : F -> F -> bool.
Variable float_zero float_one : F.
Variable int_times_float : Z -> F -> F.
Variable int_lt_float : Z -> F -> bool.
Variable float_is_zero : F -> bool.
Variable set_order : list (list bool) -> list (list bool).

(** Iterating over the set of rows visits each distinct row once. *)
Hypothesis set_order_nodup : forall rows, NoDup (set_order rows).
Hypothesis set_order_elements : forall rows r,
  In r (set_order rows) <-> In r rows.

Let below := below_bin_min int_lt_float float_is_zero.

(** The loop as one masked update per sample. *)
Lemma label_clusters_spec (bm : bin_min_arg F) (B : list (list bool)) :
  forall rows i labels,
    length labels = length B ->
    label_clusters int_lt_float float_is_zero bm B i rows labels
    = map2 (fun r old =>
              match last_position r rows with
              | Some p =>
                  if below bm (len (filter (fun r' => row_eqb r' r) B))
                  then -1 else i + Z.of_nat p + 1
              | None => old
              end) B labels.
Proof.
  induction rows as [|row rest IH]; intros i labels Hl.
  - simpl. revert labels Hl. induction B as [|r B IHB]; intros [|l labels] Hl;
      simpl in *; try discriminate; [reflexivity|].
    f_equal. apply IHB. now injection Hl.
  - cbn [label_clusters].
    set (mask := map (fun r => row_eqb r row) B).
    assert (Hm : length mask = length labels) by (unfold mask; rewrite length_map; lia).
    assert (Hupd : (if below_bin_min int_lt_float float_is_zero bm (len (np_where mask))
                    then assign_at (np_where mask) (-1) labels
                    else assign_at (np_where mask) (i + 1) labels)
                   = map2 (fun (m : bool) old =>
                             if m then (if below bm (len (filter (fun r' => row_eqb r' row) B))
                                        then -1 else i + 1)
                             else old) mask labels).
    { unfold mask at 1. rewrite len_np_where. fold below.
      destruct (below bm _); now apply assign_at_mask. }
    rewrite Hupd, IH.
    2:{ rewrite length_map2. unfold mask. rewrite length_map. lia. }
    unfold mask. clear Hupd Hm mask.
    rewrite map2_fuse. apply map2_ext. intros r l.
    cbn [last_position]. destruct (last_position r rest) as [p|].
    + destruct (below bm (len (filter (fun r' => row_eqb r' r) B)));
        [reflexivity|]. rewrite Nat2Z.inj_succ. lia.
    + destruct (row_eqb r row) eqn:E; [|reflexivity].
      apply row_eqb_eq in E. subst r.
      destruct (below bm (len (filter (fun r' => row_eqb r' row) B)));
        [reflexivity|]. simpl. lia.
Qed.

Lemma last_position_nodup (rows : list (list bool)) : forall p r,
  NoDup rows -> nth_error rows p = Some r -> last_position r rows = Some p.
Proof.
  induction rows as [|row rest IH]; intros p r Hnd Hp.
  - destruct p; discriminate.
  - inversion Hnd as [|? ? Hnot Hnd']; subst. cbn [last_position].
    destruct p as [|p]; simpl in Hp.
    + injection Hp as ->.
      assert (Hnone : forall rs, ~ In r rs -> last_position r rs = None).
      { induction rs as [|x rs IHrs]; intros Hn; [reflexivity|].
        cbn [last_position]. rewrite IHrs by (intros H; apply Hn; now right).
        destruct (row_eqb r x) eqn:E; [|reflexivity].
        apply row_eqb_eq in E. subst. exfalso. apply Hn. now left. }
      rewrite (Hnone rest Hnot).
      assert (E : row_eqb r r = true) by now apply row_eqb_eq.
      now rewrite E.
    + now rewrite (IH p r Hnd' Hp).
Qed.

Lemma nth_error_map2 {A B D : Type} (f : A -> B -> D) :
  forall (u : list A) (v : list B) s a b,
    nth_error u s = Some a -> nth_error v s = Some b ->
    nth_error (map2 f u v) s = Some (f a b).
Proof.
  induction u as [|x u IH]; intros [|y v] [|s] a b Ha Hb; simpl in *;
    try discriminate.
  - now injection Ha as ->; injection Hb as ->.
  - now apply IH.
Qed.

Lemma nth_error_repeat_zero (n s : nat) :
  (s < n)%nat -> nth_error (repeat 0 n) s = Some 0.
Proof.
  revert s. induction n as [|n IH]; intros [|s] H; simpl; try lia; auto.
  apply IH. lia.
Qed.

(** What [binarize] returns on a non-empty input, sample by sample. *)
Lemma binarize_characterised (acts : list (list F)) (thresh : F)
    (bin_min : bin_min_arg F) :
  acts <> [] ->
  let binarized := map (map (fun a => float_gt a thresh)) acts in
  let bm := scale_bin_min float_gt float_lt float_zero float_one int_times_float
              (len acts) bin_min in
  exists labels,
    binarize float_gt float_lt float_zero float_one int_times_float int_lt_float
      float_is_zero set_order acts thresh bin_min = Ok labels /\
    length labels = length acts /\
    forall s r k,
      nth_error binarized s = Some r ->
      nth_error (set_order binarized) k = Some r ->
      nth_error labels s
      = Some (cluster_label int_lt_float float_is_zero bm binarized k r).
Proof.
  intros Hne binarized bm. unfold binarize. fold binarized. fold bm.
  pose proof (set_order_nodup binarized) as Hnd.
  destruct (set_order binarized) as [|first others] eqn:Eo.
  { exfalso. destruct acts as [|a acts]; [contradiction|].
    assert (Hin : In (map (fun a => float_gt a thresh) a) (set_order binarized))
      by (apply set_order_elements; now left).
    rewrite Eo in Hin. contradiction. }
  set (zeros := repeat 0 (length acts)).
  assert (Hz : length zeros = length binarized)
    by (unfold zeros, binarized; now rewrite repeat_length, length_map).
  assert (Hsame : (if 1 <? len (first :: others)
                   then label_clusters int_lt_float float_is_zero bm binarized 0 others zeros
                   else zeros)
                  = label_clusters int_lt_float float_is_zero bm binarized 0 others zeros).
  { destruct others as [|o others]; [reflexivity|].
    destruct (Z.ltb_spec 1 (len (first :: o :: others))) as [_ | H];
      [reflexivity|]. unfold len in H. simpl length in H. lia. }
  rewrite Hsame, (label_clusters_spec bm binarized others 0 zeros Hz).
  eexists. split; [reflexivity|]. split.
  { rewrite length_map2, Hz. unfold binarized. rewrite length_map. lia. }
  intros s r k Hs Hk.
  assert (Hlt : (s < length acts)%nat).
  { assert (H : (s < length binarized)%nat) by (apply nth_error_Some; congruence).
    unfold binarized in H. now rewrite length_map in H. }
  rewrite (nth_error_map2 _ _ _ s r 0 Hs (nth_error_repeat_zero _ _ Hlt)).
  f_equal. inversion Hnd as [|? ? Hnot Hnd']; subst.
  destruct k as [|k]; simpl in Hk.
  - injection Hk as ->.
    assert (Hnone : last_position r others = None).
    { destruct (last_position r others) as [p|] eqn:E; [|reflexivity].
      exfalso. apply Hnot. clear - E. revert p E.
      induction others as [|x rs IH]; intros p E; [discriminate|].
      cbn [last_position] in E. destruct (last_position r rs) as [q|] eqn:Eq.
      - right. now apply (IH q).
      - destruct (row_eqb r x) eqn:Ex; [|discriminate].
        apply row_eqb_eq in Ex. now left. }
    now rewrite Hnone.
  - rewrite (last_position_nodup others k r Hnd' Hk). unfold cluster_label.
    fold below. destruct (below bm _); [reflexivity|]. rewrite Nat2Z.inj_succ. lia.
Qed.

(** [binarize] refuses an input without rows; on any other input it returns
    one label per sample: 0 for the samples whose binarized row comes first in
    the iteration order of the distinct rows, and for a row at position
    [k >= 1] the label [k], or -1 when fewer than [bin_min] samples share that
    row. *)
Theorem binarize_labels (acts : list (list F)) (thresh : F)
    (bin_min : bin_min_arg F) :
  let binarized := map (map (fun a => float_gt a thresh)) acts in
  let bm := scale_bin_min float_gt float_lt float_zero float_one int_times_float
              (len acts) bin_min in
  (acts = [] ->
   binarize float_gt float_lt float_zero float_one int_times_float int_lt_float
     float_is_zero set_order acts thresh bin_min = Raise ValueError) /\
  (acts <> [] ->
   exists labels,
     binarize float_gt float_lt float_zero float_one int_times_float int_lt_float
       float_is_zero set_order acts thresh bin_min = Ok labels /\
     length labels = length acts /\
     forall s r, nth_error binarized s = Some r ->
       exists k,
         nth_error (set_order binarized) k = Some r /\
         nth_error labels s
         = Some (cluster_label int_lt_float float_is_zero bm binarized k r)).
Proof.
  intros binarized bm. split.
  - intros ->. unfold binarize. simpl.
    destruct (set_order []) as [|r rs] eqn:E; [reflexivity|].
    assert (Hin : In r (set_order [])) by (rewrite E; now left).
    apply (proj1 (set_order_elements _ _)) in Hin. destruct Hin.
  - intros Hne.
    destruct (binarize_characterised acts thresh bin_min Hne)
      as (labels & Hrun & Hlen & Hlab).
    exists labels. split; [exact Hrun|]. split; [exact Hlen|].
    intros s r Hs.
    assert (Hin : In r (set_order binarized)).
    { apply set_order_elements. eapply nth_error_In; eassumption. }
    apply In_nth_error in Hin. destruct Hin as (k & Hk).
    exists k. split; [exact Hk|]. now apply Hlab.
Qed.

(** Labels separate the clusters: two samples with the same binarized row
    get the same label, and two samples that share a label other than -1 have
    the same binarized row. *)
Theorem binarize_separates (acts : list (list F)) (thresh : F)
    (bin_min : bin_min_arg F) (labels : list Z) (s s' : nat)
    (r r' : list bool) (l l' : Z) :
  binarize float_gt float_lt float_zero float_one int_times_float int_lt_float
    float_is_zero set_order acts thresh bin_min = Ok labels ->
  nth_error (map (map (fun a => float_gt a thresh)) acts) s = Some r ->
  nth_error (map (map (fun a => float_gt a thresh)) acts) s' = Some r' ->
  nth_error labels s = Some l ->
  nth_error labels s' = Some l' ->
  (r = r' -> l = l') /\ (l = l' -> l <> -1 -> r = r').
Proof.
  intros Hrun Hs Hs' Hl Hl'.
  assert (Hne : acts <> []) by (intros ->; destruct s; discriminate).
  destruct (binarize_characterised acts thresh bin_min Hne)
    as (labels0 & Hrun0 & _ & Hlab).
  rewrite Hrun in Hrun0. injection Hrun0 as <-.
  set (B := map (map (fun a => float_gt a thresh)) acts) in *.
  assert (Hk : forall x, In x B -> exists k, nth_error (set_order B) k = Some x).
  { intros x Hx. apply In_nth_error. now apply set_order_elements. }
  destruct (Hk r (nth_error_In _ _ Hs)) as (k & Ek).
  destruct (Hk r' (nth_error_In _ _ Hs')) as (k' & Ek').
  pose proof (Hlab s r k Hs Ek) as E1. pose proof (Hlab s' r' k' Hs' Ek') as E2.
  rewrite Hl in E1. rewrite Hl' in E2. injection E1 as ->. injection E2 as ->.
  pose proof (set_order_nodup B) as Hnd.
  split.
  - intros <-.
    assert (k = k').
    { rewrite NoDup_nth_error in Hnd. apply Hnd; [|congruence].
      apply nth_error_Some. congruence. }
    now subst k'.
  - intros Heq Hnm1.
    assert (k = k').
    { unfold cluster_label in Heq, Hnm1. fold below in Heq, Hnm1.
      set (c := below _ (len (filter (fun x => row_eqb x r) B))) in *.
      set (c' := below _ (len (filter (fun x => row_eqb x r') B))) in *.
      destruct k as [|k], k' as [|k'], c, c'; lia. }
    subst k'. congruence.
Qed.

End BinarizeFacts.

Section SamplerBatchSize.

Variables F L C G : Type.
Variable sh : G -> list nat -> list nat * G.
Hypothesis sh_perm : forall g idx, Permutation (fst (sh g idx)) idx.

(** Every call with a batch size in [1, num_samples], from a position inside
    the epoch, returns exactly [batch_size] rows and, on a labeled set, as many
    labels; it keeps the object consistent and the position in
    [1, num_samples], shuffling on or off. *)
Theorem next_batch_returns_batch_size (d : DataSet F L C) (g : G) (b : Z) :
  consistent d ->
  0 <= _index_in_epoch d <= _num_samples d ->
  0 < b <= _num_samples d ->
  exists bt d' g',
    next_batch sh b (d, g) = (Ok bt, (d', g')) /\
    len (batch_data bt) = b /\
    (_labeled d = true -> exists lb, batch_labels bt = Some lb /\ len lb = b) /\
    consistent d' /\
    0 < _index_in_epoch d' <= _num_samples d' /\
    _num_samples d' = _num_samples d.
Proof.
  intros Hc Hi Hb.
  destruct (next_batch_valid_step F L C G sh sh_perm d g b Hc Hi Hb)
    as (bt & d' & g' & H1 & H2 & H3 & H4 & H5 & H6 & _).
  exists bt, d', g'. auto 10.
Qed.

End SamplerBatchSize.

(** ** The further properties on concrete inputs *)

Lemma four_rows_consistent : consistent four_rows.
Proof.
  apply (unlabeled_consistent (index_rows 4)).
Qed.

Lemma next_batch_returns_batch_size_witness :
  exists bt d' g',
    next_batch reversing_shuffle 4 (ten_labeled_at_8, 0%nat) = (Ok bt, (d', g')) /\
    len (batch_data bt) = 4.
Proof.
  destruct (next_batch_returns_batch_size Z Z unit nat reversing_shuffle
              reversing_shuffle_perm ten_labeled_at_8 0%nat 4
              ten_labeled_consistent)
    as (bt & d' & g' & Hrun & Hlen & _).
  - simpl. lia.
  - simpl. lia.
  - exists bt, d', g'. auto.
Defined.

Lemma next_batches_counters_witness :
  exists bs d' g',
    next_batches reversing_shuffle 3 2 (four_rows, 0%nat) = (Ok bs, (d', g')) /\
    _epochs_trained d' = 1 /\ _index_in_epoch d' = 2.
Proof.
  destruct (next_batches_counters Z Z unit nat reversing_shuffle
              reversing_shuffle_perm 3 four_rows 0%nat 2 four_rows_consistent)
    as (bs & d' & g' & Hrun & _ & _ & _ & _ & _ & _ & Hclosed).
  - simpl. lia.
  - simpl. lia.
  - destruct (Hclosed eq_refl eq_refl) as [He Hi]; [lia|].
    exists bs, d', g'. split; [exact Hrun|]. split; [exact He|exact Hi].
Defined.

Lemma next_batches_cyclic_witness :
  exists bs d',
    next_batches reversing_shuffle 3 2 (four_rows, 0%nat) = (Ok bs, (d', 0%nat)) /\
    take (index_rows 4) [0; 1; 2; 3; 0; 1]%nat = Some (concat (map batch_data bs)).
Proof.
  destruct (next_batches_cyclic Z Z unit nat reversing_shuffle
              reversing_shuffle_perm 3 four_rows 0%nat 2 four_rows_consistent)
    as (bs & d' & Hrun & _ & Htake).
  - simpl. lia.
  - simpl. lia.
  - reflexivity.
  - exists bs, d'. split; [exact Hrun|exact Htake].
Defined.

Lemma batch_pairs_from_dataset_witness :
  exists bt d' g' lb,
    next_batch reversing_shuffle 4 (ten_labeled_at_8, 0%nat) = (Ok bt, (d', g')) /\
    batch_labels bt = Some lb /\
    length lb = length (batch_data bt).
Proof.
  destruct (next_batch_valid_step Z Z unit nat reversing_shuffle
              reversing_shuffle_perm ten_labeled_at_8 0%nat 4
              ten_labeled_consistent) as (bt & d' & g' & Hrun & _);
    [simpl; lia | simpl; lia |].
  destruct (batch_pairs_from_dataset Z Z unit nat reversing_shuffle
              reversing_shuffle_perm ten_labeled_at_8 0%nat 4 bt d' g'
              ten_labeled_consistent eq_refl) as (lb & Hlb & Hlen & _).
  - simpl. lia.
  - simpl. lia.
  - exact Hrun.
  - exists bt, d', g', lb. auto.
Defined.

Lemma len_unchanged_by_next_batch_witness :
  exists bt d' g',
    next_batch reversing_shuffle 2 (two_labeled, 0%nat) = (Ok bt, (d', g')) /\
    __len__ d' = Ok 3.
Proof.
  destruct (next_batch_valid_step Z Z unit nat reversing_shuffle
              reversing_shuffle_perm two_labeled 0%nat 2
              two_labeled_consistent) as (bt & d' & g' & Hrun & _);
    [simpl; lia | simpl; lia |].
  exists bt, d', g'. split; [exact Hrun|].
  rewrite (len_unchanged_by_next_batch Z Z unit nat reversing_shuffle
             reversing_shuffle_perm two_labeled 0%nat 2 bt d' g'
             two_labeled_consistent Hrun).
  reflexivity.
Defined.

Lemma init_establishes_invariant_witness :
  exists d' g',
    __init__ reversing_shuffle true true
      (keywords (index_rows 2) (Some [10; 11])) 0%nat = (Ok d', g') /\
    consistent d' /\ _num_samples d' = 2.
Proof.
  destruct (init_establishes_invariant Z Z unit nat reversing_shuffle
              reversing_shuffle_perm true true
              (keywords (index_rows 2) (Some [10; 11])) 0%nat (index_rows 2))
    as (d' & g' & Hrun & Hc & Hn & _).
  - reflexivity.
  - intros _. exists [10; 11]. split; reflexivity.
  - left. reflexivity.
  - exists d', g'. auto.
Defined.

Lemma first_seen_order_nodup (rows : list (list bool)) :
  NoDup (first_seen_order rows).
Proof.
  apply NoDup_rev, NoDup_nodup.
Qed.

Lemma first_seen_order_elements (rows : list (list bool)) (r : list bool) :
  In r (first_seen_order rows) <-> In r rows.
Proof.
  unfold first_seen_order. rewrite <- in_rev, nodup_In, <- in_rev. reflexivity.
Qed.

Lemma binarize_labels_witness :
  exists labels,
    binarize_int [[1; 0]; [0; 0]; [1; 0]] 0 BinNone = Ok labels /\
    length labels = 3%nat.
Proof.
  destruct (proj2 (binarize_labels Z Z.gtb Z.ltb 0 1 Z.mul Z.ltb (Z.eqb 0)
                     first_seen_order first_seen_order_nodup
                     first_seen_order_elements
                     [[1; 0]; [0; 0]; [1; 0]] 0 BinNone))
    as (labels & Hrun & Hlen & _).
  - discriminate.
  - exists labels. split; [exact Hrun|exact Hlen].
Defined.

Lemma binarize_separates_witness :
  exists labels,
    binarize_int [[1; 0]; [0; 0]; [1; 0]] 0 BinNone = Ok labels /\
    nth_error labels 0 = nth_error labels 2.
Proof.
  exists [0; 1; 0]. split; [reflexivity|].
  exact (f_equal Some
           (proj1 (binarize_separates Z Z.gtb Z.ltb 0 1 Z.mul Z.ltb (Z.eqb 0)
                     first_seen_order first_seen_order_nodup first_seen_order_elements
                     [[1; 0]; [0; 0]; [1; 0]] 0 BinNone [0; 1; 0] 0 2
                     [true; false] [true; false] 0 0
                     eq_refl eq_refl eq_refl eq_refl eq_refl) eq_refl)).
Defined.
